(** * susres: suspend, resume and probe all threads of a Windows process

    A shallow embedding of [watchman/winbuild/susres.cpp].  The program is a
    sequence of Win32 calls with early returns, so the embedding threads an
    explicit [world] (the part of the operating system the program can
    observe or change) through every call.  Module [Win32] is the model of
    the operating system; module [Susres] holds the three functions of the
    source ([apply], [status], [main]); module [Observe] reads a run off
    the world it leaves behind.  The modules after these prove, first, that
    [status] and [apply] compute closed-form summaries of themselves, and
    then the properties of the three operations. *)

From Stdlib Require Import ZArith List String Ascii Bool Arith Lia.
Import ListNotations.
Local Open Scope string_scope.
Local Open Scope list_scope.
Local Open Scope Z_scope.

(* ================================================================== *)
(** ** The operating system, as far as the program sees it *)
(* ================================================================== *)

Module Win32.

(** [DWORD] is an unsigned 32-bit integer, [HANDLE] a pointer-sized value.
    Both are carried by [Z]; conversions to [DWORD] wrap explicitly. *)
Definition DWORD := Z.
Definition HANDLE := Z.

Definition NULL : HANDLE := 0.
Definition INVALID_HANDLE_VALUE : HANDLE := -1.

Definition to_DWORD (z : Z) : DWORD := z mod 2 ^ 32.

(** [static_cast<DWORD>(-1)], the failure value of Suspend/ResumeThread. *)
Definition DWORD_minus_one : DWORD := to_DWORD (-1).

Definition MAXIMUM_SUSPEND_COUNT : nat := 127.

Definition ERROR_ACCESS_DENIED : DWORD := 5.
Definition ERROR_INVALID_HANDLE : DWORD := 6.
Definition ERROR_NOT_ENOUGH_MEMORY : DWORD := 8.
Definition ERROR_INVALID_PARAMETER : DWORD := 87.
Definition ERROR_PROC_NOT_FOUND : DWORD := 127.
Definition ERROR_SIGNAL_REFUSED : DWORD := 156.
Definition STATUS_INVALID_HANDLE : DWORD := 3221225480.       (* 0xC0000008 *)
Definition STATUS_OBJECT_TYPE_MISMATCH : DWORD := 3221225508. (* 0xC0000024 *)

(** One argument of an [fmt::print] call.  A printed line is the list of
    its pieces; [Strerror e] stands for the text [win32_strerror(e)], which
    only the operating system can produce. *)
Inductive piece :=
| Lit (s : string)
| Str (s : string)
| Dec (n : Z)
| Hex (n : Z)
| Strerror (err : DWORD)
| NL.

Definition line := list piece.

(** The two whole-process primitives exported by ntdll. *)
Inductive sus_res_func := NtSuspendProcess | NtResumeProcess.

(** Every call that crosses into the operating system, with its result. *)
Inductive oscall :=
| EvGetProcAddress (name : string) (found : bool)
| EvOpenProcess (pid : DWORD) (ret : HANDLE)
| EvNtCall (f : sus_res_func) (proc : HANDLE) (ret : DWORD)
| EvCreateToolhelp32Snapshot (ret : HANDLE)
| EvThread32First
| EvThread32Next
| EvOpenThread (tid : DWORD) (ret : HANDLE)
| EvSuspendThread (tid : DWORD) (ret : DWORD)
| EvResumeThread (tid : DWORD) (ret : DWORD)
| EvBadThreadHandle (h : HANDLE)
| EvCloseHandle (h : HANDLE).

(** Modelled from the spec: a thread carries its identifier, its owning
    process and its suspend count ("a non-negative integer maintained by the
    OS per thread; running when 0, suspended when >= 1").  The three flags
    say whether OpenThread, SuspendThread and ResumeThread succeed on it;
    they stand for access rights and for threads that exit under the probe. *)
Record thread := mkThread {
  th_id : DWORD;
  th_owner : DWORD;
  th_count : nat;
  th_open_ok : bool;
  th_suspend_ok : bool;
  th_resume_ok : bool
}.

Record process := mkProcess {
  pr_id : DWORD;
  pr_access : bool   (* PROCESS_ALL_ACCESS is granted to the caller *)
}.

Record THREADENTRY32 := mkEntry {
  th32ThreadID : DWORD;
  th32OwnerProcessID : DWORD
}.

(** What an open handle refers to. *)
Inductive hobj :=
| HProcess (pid : DWORD)
| HThread (tid : DWORD)
| HSnapshot (entries : list THREADENTRY32).

(** The handle table is keyed by [positive]: neither [NULL] nor
    [INVALID_HANDLE_VALUE] ever names an open handle. *)
Record world := mkWorld {
  procs : list process;
  threads : list thread;             (* in snapshot enumeration order *)
  handles : list (positive * hobj);  (* handles open in this program *)
  ntdll_exports : list string;
  snapshot_ok : bool;                (* CreateToolhelp32Snapshot succeeds *)
  last_error : DWORD;
  stdout : list line;
  calls : list oscall
}.

Definition set_threads (ts : list thread) (w : world) : world :=
  mkWorld (procs w) ts (handles w) (ntdll_exports w) (snapshot_ok w)
          (last_error w) (stdout w) (calls w).

Definition set_handles (hs : list (positive * hobj)) (w : world) : world :=
  mkWorld (procs w) (threads w) hs (ntdll_exports w) (snapshot_ok w)
          (last_error w) (stdout w) (calls w).

Definition SetLastError (e : DWORD) (w : world) : world :=
  mkWorld (procs w) (threads w) (handles w) (ntdll_exports w) (snapshot_ok w)
          e (stdout w) (calls w).

Definition GetLastError (w : world) : DWORD := last_error w.

Definition print (l : line) (w : world) : world :=
  mkWorld (procs w) (threads w) (handles w) (ntdll_exports w) (snapshot_ok w)
          (last_error w) (stdout w ++ [l]) (calls w).

Definition log (evs : list oscall) (w : world) : world :=
  mkWorld (procs w) (threads w) (handles w) (ntdll_exports w) (snapshot_ok w)
          (last_error w) (stdout w) (calls w ++ evs).

(** *** Handle table *)

Definition fresh_handle (hs : list (positive * hobj)) : positive :=
  Pos.succ (fold_right Pos.max 1%positive (map fst hs)).

Definition lookup_handle (h : HANDLE) (hs : list (positive * hobj))
  : option hobj :=
  match h with
  | Zpos p => option_map snd (find (fun e => Pos.eqb (fst e) p) hs)
  | _ => None
  end.

Definition remove_handle (h : HANDLE) (hs : list (positive * hobj))
  : list (positive * hobj) :=
  match h with
  | Zpos p => filter (fun e => negb (Pos.eqb (fst e) p)) hs
  | _ => hs
  end.

Definition alloc_handle (o : hobj) (w : world) : HANDLE * world :=
  let h := fresh_handle (handles w) in
  (Zpos h, set_handles ((h, o) :: handles w) w).

Definition CloseHandle (h : HANDLE) (w : world) : world :=
  log [EvCloseHandle h]
      match lookup_handle h (handles w) with
      | Some _ => set_handles (remove_handle h (handles w)) w
      | None => SetLastError ERROR_INVALID_HANDLE w
      end.

(** *** Threads *)

Definition find_thread (tid : DWORD) (ts : list thread) : option thread :=
  find (fun t => th_id t =? tid) ts.

Definition with_count (c : nat) (t : thread) : thread :=
  mkThread (th_id t) (th_owner t) c
           (th_open_ok t) (th_suspend_ok t) (th_resume_ok t).

(** Modelled from the spec: a suspend increments the thread's count (up
    to [MAXIMUM_SUSPEND_COUNT]), a resume decrements it (down to 0). *)
Definition suspend_one (t : thread) : thread :=
  if (th_count t <? MAXIMUM_SUSPEND_COUNT)%nat
  then with_count (S (th_count t)) t else t.

Definition resume_one (t : thread) : thread :=
  with_count (Nat.pred (th_count t)) t.

Fixpoint update_thread (tid : DWORD) (f : thread -> thread)
         (ts : list thread) : list thread :=
  match ts with
  | [] => []
  | t :: r => if th_id t =? tid then f t :: r
              else t :: update_thread tid f r
  end.

(** OpenThread(THREAD_SUSPEND_RESUME, FALSE, tid): a new handle, or, as
    the Win32 contract has it, [NULL] with the last error set. *)
Definition OpenThread (tid : DWORD) (w : world) : HANDLE * world :=
  match find_thread tid (threads w) with
  | Some t =>
      if th_open_ok t then
        let '(h, w) := alloc_handle (HThread tid) w in
        (h, log [EvOpenThread tid h] w)
      else (NULL, log [EvOpenThread tid NULL]
                      (SetLastError ERROR_ACCESS_DENIED w))
  | None => (NULL, log [EvOpenThread tid NULL]
                       (SetLastError ERROR_INVALID_PARAMETER w))
  end.

(** SuspendThread: the previous suspend count, or [(DWORD)-1] with the
    thread left as it was. *)
Definition SuspendThread (h : HANDLE) (w : world) : DWORD * world :=
  match lookup_handle h (handles w) with
  | Some (HThread tid) =>
      match find_thread tid (threads w) with
      | Some t =>
          if th_suspend_ok t && (th_count t <? MAXIMUM_SUSPEND_COUNT)%nat then
            (Z.of_nat (th_count t),
             log [EvSuspendThread tid (Z.of_nat (th_count t))]
                 (set_threads (update_thread tid suspend_one (threads w)) w))
          else
            (DWORD_minus_one,
             log [EvSuspendThread tid DWORD_minus_one]
                 (SetLastError (if th_suspend_ok t then ERROR_SIGNAL_REFUSED
                                else ERROR_ACCESS_DENIED) w))
      | None =>
          (DWORD_minus_one,
           log [EvSuspendThread tid DWORD_minus_one]
               (SetLastError ERROR_ACCESS_DENIED w))
      end
  | _ => (DWORD_minus_one,
          log [EvBadThreadHandle h] (SetLastError ERROR_INVALID_HANDLE w))
  end.

(** ResumeThread: the previous suspend count, or [(DWORD)-1] with the
    thread left as it was. *)
Definition ResumeThread (h : HANDLE) (w : world) : DWORD * world :=
  match lookup_handle h (handles w) with
  | Some (HThread tid) =>
      match find_thread tid (threads w) with
      | Some t =>
          if th_resume_ok t then
            (Z.of_nat (th_count t),
             log [EvResumeThread tid (Z.of_nat (th_count t))]
                 (set_threads (update_thread tid resume_one (threads w)) w))
          else
            (DWORD_minus_one,
             log [EvResumeThread tid DWORD_minus_one]
                 (SetLastError ERROR_ACCESS_DENIED w))
      | None =>
          (DWORD_minus_one,
           log [EvResumeThread tid DWORD_minus_one]
               (SetLastError ERROR_ACCESS_DENIED w))
      end
  | _ => (DWORD_minus_one,
          log [EvBadThreadHandle h] (SetLastError ERROR_INVALID_HANDLE w))
  end.

(** *** Thread snapshots *)

Definition entry_of (t : thread) : THREADENTRY32 :=
  mkEntry (th_id t) (th_owner t).

(** CreateToolhelp32Snapshot(TH32CS_SNAPTHREAD, 0): a point-in-time copy of
    the system-wide thread list, or [INVALID_HANDLE_VALUE]. *)
Definition CreateToolhelp32Snapshot (w : world) : HANDLE * world :=
  if snapshot_ok w then
    let '(h, w) := alloc_handle (HSnapshot (map entry_of (threads w))) w in
    (h, log [EvCreateToolhelp32Snapshot h] w)
  else (INVALID_HANDLE_VALUE,
        log [EvCreateToolhelp32Snapshot INVALID_HANDLE_VALUE]
            (SetLastError ERROR_NOT_ENOUGH_MEMORY w)).

(** The enumeration cursor is the list of entries not yet returned:
    Thread32First yields all of them (the head is the entry written to
    [entry], an empty list is FALSE), Thread32Next moves to the tail. *)
Definition Thread32First (snapshot : HANDLE) (w : world)
  : list THREADENTRY32 * world :=
  (match lookup_handle snapshot (handles w) with
   | Some (HSnapshot es) => es
   | _ => []
   end, log [EvThread32First] w).

Definition Thread32Next (w : world) : world := log [EvThread32Next] w.

(** *** Processes *)

Definition find_process (pid : DWORD) (w : world) : option process :=
  find (fun p => pr_id p =? pid) (procs w).

(** OpenProcess(PROCESS_ALL_ACCESS, FALSE, pid): a new handle, or, as the
    Win32 contract has it, [NULL] with the last error set when the process
    does not exist or refuses the access. *)
Definition OpenProcess (pid : DWORD) (w : world) : HANDLE * world :=
  match find_process pid w with
  | Some p =>
      if pr_access p then
        let '(h, w) := alloc_handle (HProcess pid) w in
        (h, log [EvOpenProcess pid h] w)
      else (NULL, log [EvOpenProcess pid NULL]
                      (SetLastError ERROR_ACCESS_DENIED w))
  | None => (NULL, log [EvOpenProcess pid NULL]
                       (SetLastError ERROR_INVALID_PARAMETER w))
  end.

Definition func_of_name (name : string) : option sus_res_func :=
  if String.eqb name "NtSuspendProcess" then Some NtSuspendProcess
  else if String.eqb name "NtResumeProcess" then Some NtResumeProcess
  else None.

(** GetProcAddress(GetModuleHandle("ntdll"), name). *)
Definition GetProcAddress (name : string) (w : world)
  : option sus_res_func * world :=
  if existsb (String.eqb name) (ntdll_exports w) then
    (func_of_name name, log [EvGetProcAddress name true] w)
  else (None, log [EvGetProcAddress name false]
                  (SetLastError ERROR_PROC_NOT_FOUND w)).

Definition adjust (f : sus_res_func) (t : thread) : thread :=
  match f with
  | NtSuspendProcess => suspend_one t
  | NtResumeProcess => resume_one t
  end.

(** Modelled from the spec: "every thread currently belonging to the target
    process is suspended (incrementing each thread's count) or resumed
    (decrementing each thread's count) as a single OS-mediated action".  The
    result is an NTSTATUS, 0 on success. *)
Definition call_sus_res (f : sus_res_func) (proc : HANDLE) (w : world)
  : DWORD * world :=
  match lookup_handle proc (handles w) with
  | Some (HProcess pid) =>
      (0, log [EvNtCall f proc 0]
              (set_threads
                 (map (fun t => if th_owner t =? pid then adjust f t else t)
                      (threads w)) w))
  | Some _ => (STATUS_OBJECT_TYPE_MISMATCH,
               log [EvNtCall f proc STATUS_OBJECT_TYPE_MISMATCH] w)
  | None => (STATUS_INVALID_HANDLE,
             log [EvNtCall f proc STATUS_INVALID_HANDLE] w)
  end.

(** *** The C runtime's [_atoi64] *)

Definition I64_MAX : Z := 2 ^ 63 - 1.
Definition I64_MIN : Z := - 2 ^ 63.

Definition isspace (c : ascii) : bool :=
  let n := nat_of_ascii c in
  ((n =? 32) || ((9 <=? n) && (n <=? 13)))%nat.

Definition digit_val (c : ascii) : option Z :=
  let n := Z.of_nat (nat_of_ascii c) in
  if (48 <=? n) && (n <=? 57) then Some (n - 48) else None.

Fixpoint skip_space (s : string) : string :=
  match s with
  | String c r => if isspace c then skip_space r else s
  | EmptyString => s
  end.

Fixpoint digits (s : string) (acc : Z) : Z :=
  match s with
  | String c r =>
      match digit_val c with
      | Some d => digits r (10 * acc + d)
      | None => acc
      end
  | EmptyString => acc
  end.

Definition clamp_i64 (z : Z) : Z := Z.max I64_MIN (Z.min I64_MAX z).

(** Modelled from the spec: the "base-10, 64-bit" parse of the pid
    argument.  Leading white space, an optional sign, then decimal digits up
    to the first other character; no digits give 0; out-of-range values
    saturate at [I64_MAX] / [I64_MIN]. *)
Definition _atoi64 (s : string) : Z :=
  match skip_space s with
  | String "-"%char r => clamp_i64 (- digits r 0)
  | String "+"%char r => clamp_i64 (digits r 0)
  | r => clamp_i64 (digits r 0)
  end.

End Win32.

(* ================================================================== *)
(** ** The program *)
(* ================================================================== *)

Module Susres.
Import Win32.

Definition sus_res_name (suspend : bool) : string :=
  if suspend then "NtSuspendProcess" else "NtResumeProcess".

(** [int apply(DWORD pid, BOOL suspend)] *)
Definition apply (pid : DWORD) (suspend : bool) (w : world) : Z * world :=
  let name := sus_res_name suspend in
  let '(func, w) := GetProcAddress name w in
  match func with
  | None =>
      (1, print [Lit "Failed to GetProcAddress("; Str name; Lit "): ";
                 Strerror (GetLastError w); NL] w)
  | Some func =>
      let '(proc, w) := OpenProcess pid w in
      if proc =? INVALID_HANDLE_VALUE then
        (1, print [Lit "Failed to OpenProcess("; Dec pid; Lit "): ";
                   Strerror (GetLastError w); NL] w)
      else
        let '(res, w) := call_sus_res func proc w in
        let w := if negb (res =? 0)
                 then print [Str name; Lit "("; Dec pid; Lit ") returns ";
                             Hex res; Lit ": "; Strerror res; NL] w
                 else w in
        let w := CloseHandle proc w in
        (if res =? 0 then 0 else 1, w)
  end.

(** How the [while (haveThread)] loop of [status] is left: by one of the
    three [return 1] statements, or by falling out of the loop (the cursor
    is exhausted, or the [break]). *)
Inductive loop_exit :=
| LoopReturn (code : Z) (w : world)
| LoopDone (foundThread allSuspended : bool) (w : world).

Fixpoint status_loop (pid : DWORD) (snapshot : HANDLE)
         (cursor : list THREADENTRY32)
         (foundThread allSuspended : bool) (w : world) : loop_exit :=
  match cursor with
  | [] => LoopDone foundThread allSuspended w
  | entry :: rest =>
      if th32OwnerProcessID entry =? pid then
        let '(thread, w) := OpenThread (th32ThreadID entry) w in
        if thread =? NULL then
          let w := print [Lit "Failed to OpenThread(";
                          Dec (th32ThreadID entry); Lit "): ";
                          Strerror (GetLastError w); NL] w in
          LoopReturn 1 (CloseHandle snapshot w)
        else
          let '(previousCount, w) := SuspendThread thread w in
          if previousCount =? DWORD_minus_one then
            let w := print [Lit "SuspendThread("; Dec (th32ThreadID entry);
                            Lit ") failed: "; Strerror (GetLastError w); NL]
                           w in
            LoopReturn 1 (CloseHandle snapshot (CloseHandle thread w))
          else
            let '(resumeCount, w) := ResumeThread thread w in
            if resumeCount =? DWORD_minus_one then
              let w := print [Lit "ResumeThread("; Dec (th32ThreadID entry);
                              Lit ") failed: "; Strerror (GetLastError w);
                              NL] w in
              LoopReturn 1 (CloseHandle snapshot (CloseHandle thread w))
            else if previousCount =? 0 then
              LoopDone true false (CloseHandle thread w)
            else
              status_loop pid snapshot rest true allSuspended
                          (Thread32Next (CloseHandle thread w))
      else
        status_loop pid snapshot rest foundThread allSuspended
                    (Thread32Next w)
  end.

(** [int status(DWORD pid)] *)
Definition status (pid : DWORD) (w : world) : Z * world :=
  let '(snapshot, w) := CreateToolhelp32Snapshot w in
  if snapshot =? INVALID_HANDLE_VALUE then
    (1, print [Lit "Failed to CreateToolhelp32Snapshot: ";
               Strerror (GetLastError w); NL] w)
  else
    let '(cursor, w) := Thread32First snapshot w in
    match status_loop pid snapshot cursor false true w with
    | LoopReturn code w => (code, w)
    | LoopDone foundThread allSuspended w =>
        let w := CloseHandle snapshot w in
        if negb foundThread then
          (1, print [Lit "No threads found for pid "; Dec pid; NL] w)
        else
          (0, print [Str (if allSuspended then "T" else "R"); NL] w)
    end.

Definition usage_text : line :=
  [Lit "Usage: susres suspend [pid]"; NL;
   Lit "       susres resume  [pid]"; NL;
   Lit "       susres status  [pid]"; NL].

(** [void usage()]: prints and calls [exit(1)]; the exit is the returned
    code, and [main] stops where it calls [usage]. *)
Definition usage (w : world) : Z * world := (1, print usage_text w).

Inductive Command := Suspend | Resume | Status.

Definition parse_command (verb : string) : option Command :=
  if String.eqb verb "suspend" then Some Suspend
  else if String.eqb verb "resume" then Some Resume
  else if String.eqb verb "status" then Some Status
  else None.

Definition run_command (cmd : Command) (pid : DWORD) (w : world)
  : Z * world :=
  match cmd with
  | Suspend => apply pid true w
  | Resume => apply pid false w
  | Status => status pid w
  end.

(** [int main(int argc, char** argv)], with [argc = length argv]. *)
Definition main (argv : list string) (w : world) : Z * world :=
  if negb (Z.of_nat (List.length argv) =? 3) then usage w
  else
    match parse_command (nth 1 argv "") with
    | None => usage w
    | Some cmd =>
        let pid := to_DWORD (_atoi64 (nth 2 argv "")) in
        run_command cmd pid w
    end.

End Susres.

(* ================================================================== *)
(** ** What one run of the program did *)
(* ================================================================== *)

Module Observe.
Import Win32 Susres.

(** The calls made and the lines printed between two worlds. *)
Definition new_calls (w w' : world) : list oscall :=
  skipn (List.length (calls w)) (calls w').

Definition new_output (w w' : world) : list line :=
  skipn (List.length (stdout w)) (stdout w').

(** Thread identifiers handed to OpenThread, and those it opened. *)
Definition open_attempts (tr : list oscall) : list DWORD :=
  flat_map (fun ev => match ev with
                      | EvOpenThread tid _ => [tid]
                      | _ => []
                      end) tr.

Definition opened_threads (tr : list oscall) : list DWORD :=
  flat_map (fun ev => match ev with
                      | EvOpenThread tid h => if h =? NULL then [] else [tid]
                      | _ => []
                      end) tr.

(** Threads on which SuspendThread (ResumeThread) was issued. *)
Definition suspended_tids (tr : list oscall) : list DWORD :=
  flat_map (fun ev => match ev with
                      | EvSuspendThread tid _ => [tid]
                      | _ => []
                      end) tr.

Definition resumed_tids (tr : list oscall) : list DWORD :=
  flat_map (fun ev => match ev with
                      | EvResumeThread tid _ => [tid]
                      | _ => []
                      end) tr.

(** Threads probed: SuspendThread returned a previous count. *)
Definition probed (tr : list oscall) : list DWORD :=
  flat_map (fun ev => match ev with
                      | EvSuspendThread tid r =>
                          if r =? DWORD_minus_one then [] else [tid]
                      | _ => []
                      end) tr.

Definition resume_failed (tr : list oscall) : bool :=
  existsb (fun ev => match ev with
                     | EvResumeThread _ r => r =? DWORD_minus_one
                     | _ => false
                     end) tr.

Definition process_calls (tr : list oscall) : list oscall :=
  filter (fun ev => match ev with
                    | EvGetProcAddress _ _ | EvOpenProcess _ _
                    | EvNtCall _ _ _ => true
                    | _ => false
                    end) tr.

Definition freeze_calls (tr : list oscall) : list oscall :=
  filter (fun ev => match ev with
                    | EvNtCall _ _ _ => true
                    | _ => false
                    end) tr.

Definition next_calls (tr : list oscall) : nat :=
  List.length (filter (fun ev => match ev with
                                 | EvThread32Next => true
                                 | _ => false
                                 end) tr).

(** The suspend count of a thread in a given world. *)
Definition count_of (ts : list thread) (tid : DWORD) : nat :=
  match find_thread tid ts with
  | Some t => th_count t
  | None => 0%nat
  end.

Definition suspend_count (w : world) (tid : DWORD) : nat :=
  count_of (threads w) tid.

Definition owned (pid : DWORD) (e : THREADENTRY32) : bool :=
  th32OwnerProcessID e =? pid.

Definition snapshot_of (w : world) : list THREADENTRY32 :=
  map entry_of (threads w).

Definition owned_tids (pid : DWORD) (es : list THREADENTRY32) : list DWORD :=
  map th32ThreadID (filter (owned pid) es).

Definition owns_thread (pid : DWORD) (w : world) : bool :=
  existsb (owned pid) (snapshot_of w).

(** The lines of [status]. *)
Definition line_T : line := [Str "T"; NL].
Definition line_R : line := [Str "R"; NL].
Definition line_no_threads (pid : DWORD) : line :=
  [Lit "No threads found for pid "; Dec pid; NL].
Definition line_snapshot_failed (err : DWORD) : line :=
  [Lit "Failed to CreateToolhelp32Snapshot: "; Strerror err; NL].
Definition line_open_thread_failed (tid err : DWORD) : line :=
  [Lit "Failed to OpenThread("; Dec tid; Lit "): "; Strerror err; NL].
Definition line_suspend_failed (tid err : DWORD) : line :=
  [Lit "SuspendThread("; Dec tid; Lit ") failed: "; Strerror err; NL].
Definition line_resume_failed (tid err : DWORD) : line :=
  [Lit "ResumeThread("; Dec tid; Lit ") failed: "; Strerror err; NL].

Definition reports (l : line) (w w' : world) : Prop :=
  new_output w w' = [l].

(** A line carries decoded OS error text when it prints a
    [win32_strerror] result. *)
Definition carries_os_error (l : line) : bool :=
  existsb (fun p => match p with Strerror _ => true | _ => false end) l.

(** Why the loop stops at a thread of the target: the thread is running
    (the [break]) or one of its three calls fails (a [return 1]). *)
Inductive stop :=
| StopOpenFail (err : DWORD)
| StopSuspendFail (err : DWORD)
| StopResumeFail
| StopRunning.

(** The end of the probe of one thread, read off the thread table; [None]
    when the thread is found suspended and the loop goes on. *)
Definition classify (ts : list thread) (tid : DWORD) : option stop :=
  match find_thread tid ts with
  | None => Some (StopOpenFail ERROR_INVALID_PARAMETER)
  | Some t =>
      if negb (th_open_ok t) then Some (StopOpenFail ERROR_ACCESS_DENIED)
      else if negb (th_suspend_ok t)
           then Some (StopSuspendFail ERROR_ACCESS_DENIED)
      else if negb (th_count t <? MAXIMUM_SUSPEND_COUNT)%nat
           then Some (StopSuspendFail ERROR_SIGNAL_REFUSED)
      else if negb (th_resume_ok t) then Some StopResumeFail
      else if (th_count t =? 0)%nat then Some StopRunning
      else None
  end.

(** The calls of one completed probe through handle [h] of a thread whose
    count was [c]. *)
Definition probe_events (h : HANDLE) (c : nat) (tid : DWORD) : list oscall :=
  [EvOpenThread tid h; EvSuspendThread tid (Z.of_nat c);
   EvResumeThread tid (Z.of_nat (S c)); EvCloseHandle h].

(** The calls of the loop over a stretch of the snapshot in which every
    thread of the target is found suspended. *)
Definition pass_events (h : HANDLE) (ts : list thread) (pid : DWORD)
           (es : list THREADENTRY32) : list oscall :=
  flat_map (fun e =>
              if owned pid e
              then probe_events h (count_of ts (th32ThreadID e))
                                (th32ThreadID e) ++ [EvThread32Next]
              else [EvThread32Next]) es.

(** Whether, and why, the loop stops at entry [e]. *)
Definition stop_at (ts : list thread) (pid : DWORD) (e : THREADENTRY32)
  : option stop :=
  if owned pid e then classify ts (th32ThreadID e) else None.

(** The entries the loop passes, and the entry it stops at (if any) with
    the entries it never reaches. *)
Fixpoint first_stop (ts : list thread) (pid : DWORD)
         (es : list THREADENTRY32)
  : list THREADENTRY32 * option (THREADENTRY32 * stop * list THREADENTRY32) :=
  match es with
  | [] => ([], None)
  | e :: r =>
      match stop_at ts pid e with
      | Some s => ([], Some (e, s, r))
      | None => let '(pre, x) := first_stop ts pid r in (e :: pre, x)
      end
  end.

Definition stop_events (h : HANDLE) (c : nat) (tid : DWORD) (s : stop)
  : list oscall :=
  match s with
  | StopRunning => probe_events h c tid
  | StopOpenFail _ => [EvOpenThread tid NULL]
  | StopSuspendFail _ =>
      [EvOpenThread tid h; EvSuspendThread tid DWORD_minus_one;
       EvCloseHandle h]
  | StopResumeFail =>
      [EvOpenThread tid h; EvSuspendThread tid (Z.of_nat c);
       EvResumeThread tid DWORD_minus_one; EvCloseHandle h]
  end.

Definition stop_line (tid : DWORD) (s : stop) : line :=
  match s with
  | StopRunning => line_R
  | StopOpenFail err => line_open_thread_failed tid err
  | StopSuspendFail err => line_suspend_failed tid err
  | StopResumeFail => line_resume_failed tid ERROR_ACCESS_DENIED
  end.

Definition stop_code (s : stop) : Z :=
  match s with
  | StopRunning => 0
  | _ => 1
  end.

Definition stop_state (tid : DWORD) (s : stop) (w : world) : world :=
  match s with
  | StopRunning => w
  | StopOpenFail err | StopSuspendFail err => SetLastError err w
  | StopResumeFail =>
      SetLastError ERROR_ACCESS_DENIED
        (set_threads (update_thread tid suspend_one (threads w)) w)
  end.

(** The whole of [status] in one expression: what it returns, prints and
    calls, read off the initial world.  [status_summary_correct] proves
    that [status] computes exactly this. *)
Definition status_summary (pid : DWORD) (w : world) : Z * world :=
  if snapshot_ok w then
    let es := snapshot_of w in
    let hs := fresh_handle (handles w) in
    let ht := Zpos (fresh_handle ((hs, HSnapshot es) :: handles w)) in
    let '(pre, x) := first_stop (threads w) pid es in
    let head := [EvCreateToolhelp32Snapshot (Zpos hs); EvThread32First]
                  ++ pass_events ht (threads w) pid pre in
    match x with
    | None =>
        let found := existsb (owned pid) es in
        (if found then 0 else 1,
         print (if found then line_T else line_no_threads pid)
               (log (head ++ [EvCloseHandle (Zpos hs)]) w))
    | Some (e, s, _) =>
        let tid := th32ThreadID e in
        (stop_code s,
         print (stop_line tid s)
               (log (head ++ stop_events ht (count_of (threads w) tid) tid s
                          ++ [EvCloseHandle (Zpos hs)])
                    (stop_state tid s w)))
    end
  else
    (1, print (line_snapshot_failed ERROR_NOT_ENOUGH_MEMORY)
              (log [EvCreateToolhelp32Snapshot INVALID_HANDLE_VALUE]
                   (SetLastError ERROR_NOT_ENOUGH_MEMORY w))).

(** Well-formed thread tables: thread identifiers are unique. *)
Fixpoint distinct (l : list Z) : bool :=
  match l with
  | [] => true
  | x :: r => negb (existsb (Z.eqb x) r) && distinct r
  end.

Definition unique_tids (w : world) : bool :=
  distinct (map th_id (threads w)).

(** *** [apply] in one expression *)

Definition sus_res_of (suspend : bool) : sus_res_func :=
  if suspend then NtSuspendProcess else NtResumeProcess.

Definition line_getproc_failed (name : string) (err : DWORD) : line :=
  [Lit "Failed to GetProcAddress("; Str name; Lit "): "; Strerror err; NL].
Definition line_open_process_failed (pid err : DWORD) : line :=
  [Lit "Failed to OpenProcess("; Dec pid; Lit "): "; Strerror err; NL].
Definition line_returns (name : string) (pid res : DWORD) : line :=
  [Str name; Lit "("; Dec pid; Lit ") returns "; Hex res; Lit ": ";
   Strerror res; NL].

Definition process_exists (pid : DWORD) (w : world) : bool :=
  match find_process pid w with
  | Some _ => true
  | None => false
  end.

(** OpenProcess succeeds: the process exists and grants full access. *)
Definition can_open (pid : DWORD) (w : world) : bool :=
  match find_process pid w with
  | Some p => pr_access p
  | None => false
  end.

Definition exported (name : string) (w : world) : bool :=
  existsb (String.eqb name) (ntdll_exports w).

Definition adjust_process (f : sus_res_func) (pid : DWORD)
           (ts : list thread) : list thread :=
  map (fun t => if th_owner t =? pid then adjust f t else t) ts.

(** What [apply] returns, prints and calls, read off the initial world;
    [apply_summary_correct] proves that [apply] computes exactly this. *)
Definition apply_summary (pid : DWORD) (suspend : bool) (w : world)
  : Z * world :=
  let name := sus_res_name suspend in
  let f := sus_res_of suspend in
  if exported name w then
    if can_open pid w then
      let h := Zpos (fresh_handle (handles w)) in
      (0, log [EvGetProcAddress name true; EvOpenProcess pid h;
               EvNtCall f h 0; EvCloseHandle h]
              (set_threads (adjust_process f pid (threads w)) w))
    else
      (1, print (line_returns name pid STATUS_INVALID_HANDLE)
                (log [EvGetProcAddress name true; EvOpenProcess pid NULL;
                      EvNtCall f NULL STATUS_INVALID_HANDLE;
                      EvCloseHandle NULL]
                     (SetLastError ERROR_INVALID_HANDLE w)))
  else
    (1, print (line_getproc_failed name ERROR_PROC_NOT_FOUND)
              (log [EvGetProcAddress name false]
                   (SetLastError ERROR_PROC_NOT_FOUND w))).

(** *** Conditions on the initial world *)

(** Every thread belongs to a process that exists. *)
Definition owners_exist (w : world) : bool :=
  forallb (fun t => process_exists (th_owner t) w) (threads w).

(** The target can be opened and ntdll exports both primitives. *)
Definition controllable (pid : DWORD) (w : world) : bool :=
  can_open pid w && exported "NtSuspendProcess" w
  && exported "NtResumeProcess" w.


(** No call of the probe fails on a thread of the target for a reason
    other than its suspend count. *)
Definition probe_ready (pid : DWORD) (w : world) : bool :=
  snapshot_ok w
  && forallb (fun t => negb (th_owner t =? pid)
                       || (th_open_ok t && th_suspend_ok t
                           && th_resume_ok t))
             (threads w).

(** *** The claims that fail, as stated *)

(** "status is net-zero on every thread it touches, regardless of outcome:
    exactly one suspend and one resume are issued, and the suspend count
    after status equals its value before." *)
Definition net_zero_claim (pid : DWORD) (w : world) : Prop :=
  let w' := snd (status pid w) in
  let tr := new_calls w w' in
  forall tid, In tid (opened_threads tr) ->
    count_occ Z.eq_dec (suspended_tids tr) tid = 1%nat
    /\ count_occ Z.eq_dec (resumed_tids tr) tid = 1%nat
    /\ suspend_count w' tid = suspend_count w tid.

(** "on a pid that names no process, every verb exits with 1 and prints a
    diagnostic with decoded OS error text; suspend/resume report the failed
    process open before the freeze primitive is invoked." *)
Definition nonexistent_pid_claim (cmd : Command) (pid : DWORD) (w : world)
  : Prop :=
  let r := run_command cmd pid w in
  fst r = 1
  /\ (exists l, In l (new_output w (snd r)) /\ carries_os_error l = true)
  /\ (cmd <> Status -> freeze_calls (new_calls w (snd r)) = []).

Definition verb_of (cmd : Command) : string :=
  match cmd with
  | Suspend => "suspend"
  | Resume => "resume"
  | Status => "status"
  end.

(** The name [GetProcAddress] is asked for by a command that freezes. *)
Definition verb_name (cmd : Command) : string :=
  match cmd with
  | Suspend => sus_res_name true
  | _ => sus_res_name false
  end.

(** "the pid passed to the selected operation equals the 64-bit parse of
    the argument." *)
Definition pid_unaltered_claim (cmd : Command) (arg : string) (w : world)
  : Prop :=
  main ["susres"; verb_of cmd; arg] w = run_command cmd (_atoi64 arg) w.

(** "for a target with a thread in the snapshot, status reports T if and
    only if every thread it probes had a suspend count of at least 1 before
    the probe." *)
Definition verdict_claim (pid : DWORD) (w : world) : Prop :=
  owns_thread pid w = true ->
  let w' := snd (status pid w) in
  reports line_T w w' <->
  Forall (fun tid => (1 <= suspend_count w tid)%nat) (probed (new_calls w w')).

(** "a successful suspend followed by status yields T", for a target with
    a thread in the snapshot whose threads can all be opened, suspended and
    resumed. *)
Definition suspend_status_claim (pid : DWORD) (w : world) : Prop :=
  unique_tids w = true ->
  probe_ready pid w = true ->
  owns_thread pid w = true ->
  fst (apply pid true w) = 0 ->
  reports line_T (snd (apply pid true w))
          (snd (status pid (snd (apply pid true w)))).

(** Every thread of the target has a suspend count below [n]. *)
Definition counts_below (n : nat) (pid : DWORD) (w : world) : bool :=
  forallb (fun t => negb (th_owner t =? pid) || (th_count t <? n)%nat)
          (threads w).

(** *** Sample worlds *)

Definition healthy (tid owner : DWORD) (c : nat) : thread :=
  mkThread tid owner c true true true.

(** Process 4 with one thread, process 7 with three; everything runs. *)
Definition sample_world : world :=
  mkWorld [mkProcess 4 true; mkProcess 7 true]
          [healthy 40 4 0; healthy 71 7 0; healthy 72 7 0; healthy 73 7 0]
          [] ["NtSuspendProcess"; "NtResumeProcess"] true 0 [] [].

(** Thread 71 of process 7 sits at the maximum suspend count. *)
Definition saturated_world : world :=
  set_threads [healthy 40 4 0; healthy 71 7 MAXIMUM_SUSPEND_COUNT;
               healthy 72 7 0] sample_world.

(** ResumeThread fails on thread 71 of process 7. *)
Definition stuck_world : world :=
  set_threads [healthy 40 4 0; mkThread 71 7 0 true true false;
               healthy 72 7 0] sample_world.

(** Thread 71 of process 7 is one suspend below the maximum; thread 72
    runs. *)
Definition brimming_world : world :=
  set_threads [healthy 40 4 0;
               healthy 71 7 (Nat.pred MAXIMUM_SUSPEND_COUNT);
               healthy 72 7 0] sample_world.

(** Process 7 is suspended once; thread 73 cannot be opened. *)
Definition guarded_world : world :=
  set_threads [healthy 40 4 0; healthy 71 7 1; healthy 72 7 1;
               mkThread 73 7 1 false true true] sample_world.

End Observe.

(* ================================================================== *)
(** ** Further observations *)
(* ================================================================== *)

Module Coverage.
Import Win32 Susres Observe.

(** The calls of the thread enumeration: the snapshot, its cursor, and
    the three calls on a thread. *)
Definition thread_calls (tr : list oscall) : list oscall :=
  filter (fun ev => match ev with
                    | EvCreateToolhelp32Snapshot _ | EvThread32First
                    | EvThread32Next | EvOpenThread _ _
                    | EvSuspendThread _ _ | EvResumeThread _ _
                    | EvBadThreadHandle _ => true
                    | _ => false
                    end) tr.

(** Every thread of the target has a suspend count of at least 1. *)
Definition all_suspended (pid : DWORD) (w : world) : bool :=
  forallb (fun t => negb (th_owner t =? pid) || (1 <=? th_count t)%nat)
          (threads w).

(** Every thread of the target can take one more suspend. *)
Definition below_maximum (pid : DWORD) (w : world) : bool :=
  forallb (fun t => negb (th_owner t =? pid)
                    || (th_count t <? MAXIMUM_SUSPEND_COUNT)%nat)
          (threads w).

(** The command line has a verb and a pid, and the verb is known. *)
Definition well_formed (argv : list string) : bool :=
  (List.length argv =? 3)%nat
  && match parse_command (nth 1 argv "") with
     | Some _ => true
     | None => false
     end.

(** Process 7 with one thread suspended once, one running, one suspended
    twice. *)
Definition mixed_world : world :=
  set_threads [healthy 40 4 0; healthy 71 7 1; healthy 72 7 0;
               healthy 73 7 2] sample_world.

End Coverage.

(* ================================================================== *)
(** ** Facts about the operating-system model *)
(* ================================================================== *)

Module Win32Facts.
Import Win32 Observe.

Lemma DWORD_minus_one_val : DWORD_minus_one = 4294967295.
Proof. reflexivity. Qed.

Lemma count_is_not_failure (c : nat) :
  (c <= MAXIMUM_SUSPEND_COUNT)%nat -> (Z.of_nat c =? DWORD_minus_one) = false.
Proof.
  intros H. rewrite DWORD_minus_one_val. apply Z.eqb_neq.
  unfold MAXIMUM_SUSPEND_COUNT in H. lia.
Qed.

(** *** Handles *)

Lemma fresh_handle_above hs e :
  In e hs -> (fst e < fresh_handle hs)%positive.
Proof.
  unfold fresh_handle. induction hs as [|x hs IH]; simpl; [tauto|].
  intros [->|H]; [lia|]. specialize (IH H). lia.
Qed.

Lemma filter_keeps_others (p : positive) (hs : list (positive * hobj)) :
  (forall e, In e hs -> fst e <> p) ->
  filter (fun e => negb (Pos.eqb (fst e) p)) hs = hs.
Proof.
  induction hs as [|x hs IH]; simpl; intros H; [reflexivity|].
  destruct (Pos.eqb_spec (fst x) p) as [E|E].
  - exfalso. apply (H x); auto.
  - simpl. f_equal. apply IH. intros e He. apply H. auto.
Qed.

Lemma remove_fresh hs o :
  remove_handle (Zpos (fresh_handle hs)) ((fresh_handle hs, o) :: hs) = hs.
Proof.
  simpl. rewrite Pos.eqb_refl. simpl. apply filter_keeps_others.
  intros e He. pose proof (fresh_handle_above hs e He). lia.
Qed.

Lemma lookup_fresh hs o :
  lookup_handle (Zpos (fresh_handle hs)) ((fresh_handle hs, o) :: hs) = Some o.
Proof. simpl. rewrite Pos.eqb_refl. reflexivity. Qed.

Lemma lookup_older hs o h x :
  lookup_handle h hs = Some x ->
  lookup_handle h ((fresh_handle hs, o) :: hs) = Some x.
Proof.
  destruct h as [|p|p]; simpl; try discriminate.
  destruct (Pos.eqb_spec (fresh_handle hs) p) as [E|E]; [|tauto].
  destruct (find _ hs) as [e|] eqn:F; [|discriminate].
  apply find_some in F. destruct F as [Hin Heq].
  apply Pos.eqb_eq in Heq. pose proof (fresh_handle_above hs e Hin). lia.
Qed.

Lemma remove_absent h hs :
  lookup_handle h hs = None -> remove_handle h hs = hs.
Proof.
  destruct h as [|p|p]; simpl; try reflexivity.
  intros H. apply filter_keeps_others. intros e He Heq.
  destruct (find _ hs) as [x|] eqn:F; [discriminate|].
  pose proof (find_none _ _ F e He) as N. simpl in N.
  apply Pos.eqb_neq in N. contradiction.
Qed.

Lemma handles_CloseHandle h w :
  handles (CloseHandle h w) = remove_handle h (handles w).
Proof.
  unfold CloseHandle.
  destruct (lookup_handle h (handles w)) eqn:L; simpl; [reflexivity|].
  symmetry. apply remove_absent. exact L.
Qed.

Lemma threads_CloseHandle h w : threads (CloseHandle h w) = threads w.
Proof. unfold CloseHandle. destruct (lookup_handle _ _); reflexivity. Qed.

Lemma stdout_CloseHandle h w : stdout (CloseHandle h w) = stdout w.
Proof. unfold CloseHandle. destruct (lookup_handle _ _); reflexivity. Qed.

Lemma calls_CloseHandle h w :
  calls (CloseHandle h w) = calls w ++ [EvCloseHandle h].
Proof. unfold CloseHandle. destruct (lookup_handle _ _); reflexivity. Qed.

(** Closing the handle allocated last puts the handle table back. *)
Lemma CloseHandle_fresh hs o w :
  handles w = (fresh_handle hs, o) :: hs ->
  CloseHandle (Zpos (fresh_handle hs)) w =
  log [EvCloseHandle (Zpos (fresh_handle hs))] (set_handles hs w).
Proof.
  intros H. unfold CloseHandle. rewrite H, lookup_fresh, remove_fresh.
  reflexivity.
Qed.

(** *** Threads *)

Lemma find_thread_id tid ts t : find_thread tid ts = Some t -> th_id t = tid.
Proof.
  unfold find_thread. intros H. apply find_some in H.
  destruct H as [_ H]. apply Z.eqb_eq in H. exact H.
Qed.

Lemma find_thread_In tid ts t : find_thread tid ts = Some t -> In t ts.
Proof. unfold find_thread. intros H. apply find_some in H. tauto. Qed.

Lemma find_update tid f ts t :
  find_thread tid ts = Some t -> th_id (f t) = th_id t ->
  find_thread tid (update_thread tid f ts) = Some (f t).
Proof.
  unfold find_thread. induction ts as [|x ts IH]; simpl; [discriminate|].
  destruct (th_id x =? tid) eqn:E; intros H Hid.
  - injection H as ->. simpl. rewrite Hid, E. reflexivity.
  - simpl. rewrite E. auto.
Qed.

Lemma update_update tid f g ts t :
  find_thread tid ts = Some t -> th_id (f t) = th_id t ->
  update_thread tid g (update_thread tid f ts) =
  update_thread tid (fun x => g (f x)) ts.
Proof.
  unfold find_thread. induction ts as [|x ts IH]; simpl; [discriminate|].
  destruct (th_id x =? tid) eqn:E; intros H Hid.
  - injection H as ->. simpl. rewrite Hid, E. reflexivity.
  - simpl. rewrite E. f_equal. auto.
Qed.

Lemma update_fixed tid f ts t :
  find_thread tid ts = Some t -> f t = t -> update_thread tid f ts = ts.
Proof.
  unfold find_thread. induction ts as [|x ts IH]; simpl; [discriminate|].
  destruct (th_id x =? tid) eqn:E; intros H Hf.
  - injection H as ->. rewrite Hf. reflexivity.
  - f_equal. auto.
Qed.

Lemma resume_suspend t :
  (th_count t < MAXIMUM_SUSPEND_COUNT)%nat -> resume_one (suspend_one t) = t.
Proof.
  intros H. unfold suspend_one. apply Nat.ltb_lt in H. rewrite H.
  destruct t; reflexivity.
Qed.

Lemma suspend_one_id t : th_id (suspend_one t) = th_id t.
Proof. unfold suspend_one. destruct (_ <? _)%nat; reflexivity. Qed.

(** One suspend followed by one resume leaves the thread table as it was. *)
Lemma update_resume_suspend tid ts t :
  find_thread tid ts = Some t ->
  (th_count t < MAXIMUM_SUSPEND_COUNT)%nat ->
  update_thread tid resume_one (update_thread tid suspend_one ts) = ts.
Proof.
  intros F C.
  rewrite (update_update _ _ _ _ _ F (suspend_one_id t)).
  apply (update_fixed _ _ _ _ F). apply resume_suspend. exact C.
Qed.

(** *** Worlds *)

Lemma log_log a b w : log b (log a w) = log (a ++ b) w.
Proof. unfold log. simpl. rewrite <- app_assoc. reflexivity. Qed.

Lemma log_nil w : log [] w = w.
Proof. unfold log. rewrite app_nil_r. destruct w; reflexivity. Qed.

Lemma new_calls_app w w' tr : calls w' = calls w ++ tr -> new_calls w w' = tr.
Proof.
  intros H. unfold new_calls. rewrite H, skipn_app, skipn_all, Nat.sub_diag.
  reflexivity.
Qed.

Lemma new_output_app w w' ls :
  stdout w' = stdout w ++ ls -> new_output w w' = ls.
Proof.
  intros H. unfold new_output. rewrite H, skipn_app, skipn_all, Nat.sub_diag.
  reflexivity.
Qed.

End Win32Facts.

(* ================================================================== *)
(** ** The loop of [status], one entry at a time *)
(* ================================================================== *)

Module LoopFacts.
Import Win32 Susres Observe Win32Facts.

(** The three thread calls, by outcome. *)
Lemma SuspendThread_ok h tid w t :
  lookup_handle h (handles w) = Some (HThread tid) ->
  find_thread tid (threads w) = Some t ->
  th_suspend_ok t = true -> (th_count t < MAXIMUM_SUSPEND_COUNT)%nat ->
  SuspendThread h w =
  (Z.of_nat (th_count t),
   log [EvSuspendThread tid (Z.of_nat (th_count t))]
       (set_threads (update_thread tid suspend_one (threads w)) w)).
Proof.
  intros L F S C. unfold SuspendThread. rewrite L, F, S.
  apply Nat.ltb_lt in C. rewrite C. reflexivity.
Qed.

Lemma SuspendThread_fail h tid w t :
  lookup_handle h (handles w) = Some (HThread tid) ->
  find_thread tid (threads w) = Some t ->
  th_suspend_ok t && (th_count t <? MAXIMUM_SUSPEND_COUNT)%nat = false ->
  SuspendThread h w =
  (DWORD_minus_one,
   log [EvSuspendThread tid DWORD_minus_one]
       (SetLastError (if th_suspend_ok t then ERROR_SIGNAL_REFUSED
                      else ERROR_ACCESS_DENIED) w)).
Proof.
  intros L F S. unfold SuspendThread. rewrite L, F, S. reflexivity.
Qed.

Lemma ResumeThread_ok h tid w t :
  lookup_handle h (handles w) = Some (HThread tid) ->
  find_thread tid (threads w) = Some t ->
  th_resume_ok t = true ->
  ResumeThread h w =
  (Z.of_nat (th_count t),
   log [EvResumeThread tid (Z.of_nat (th_count t))]
       (set_threads (update_thread tid resume_one (threads w)) w)).
Proof.
  intros L F R. unfold ResumeThread. rewrite L, F, R. reflexivity.
Qed.

Lemma ResumeThread_fail h tid w t :
  lookup_handle h (handles w) = Some (HThread tid) ->
  find_thread tid (threads w) = Some t ->
  th_resume_ok t = false ->
  ResumeThread h w =
  (DWORD_minus_one,
   log [EvResumeThread tid DWORD_minus_one]
       (SetLastError ERROR_ACCESS_DENIED w)).
Proof.
  intros L F R. unfold ResumeThread. rewrite L, F, R. reflexivity.
Qed.

(** Two worlds are equal when their fields are; the call logs are compared
    up to reassociation of [++]. *)
Lemma world_ext w1 w2 :
  procs w1 = procs w2 -> threads w1 = threads w2 ->
  handles w1 = handles w2 -> ntdll_exports w1 = ntdll_exports w2 ->
  snapshot_ok w1 = snapshot_ok w2 -> last_error w1 = last_error w2 ->
  stdout w1 = stdout w2 -> calls w1 = calls w2 -> w1 = w2.
Proof.
  destruct w1, w2. cbn. intros. subst. reflexivity.
Qed.

Ltac world_eq :=
  apply world_ext;
  cbn [procs threads handles ntdll_exports snapshot_ok last_error stdout
       calls log print set_threads set_handles SetLastError GetLastError];
  repeat rewrite <- app_assoc;
  try reflexivity.

(** One iteration of the loop, by the class of the thread under the
    cursor.  A completed probe changes nothing but the call log. *)
Lemma status_loop_cons pid snapshot e rest f a w :
  status_loop pid snapshot (e :: rest) f a w =
  if owned pid e then
    let tid := th32ThreadID e in
    let h := Zpos (fresh_handle (handles w)) in
    let c := count_of (threads w) tid in
    match classify (threads w) tid with
    | None =>
        status_loop pid snapshot rest true a
                    (log (probe_events h c tid ++ [EvThread32Next]) w)
    | Some StopRunning => LoopDone true false (log (probe_events h c tid) w)
    | Some (StopOpenFail err) =>
        LoopReturn 1
          (CloseHandle snapshot
             (print (line_open_thread_failed tid err)
                (log [EvOpenThread tid NULL] (SetLastError err w))))
    | Some (StopSuspendFail err) =>
        LoopReturn 1
          (CloseHandle snapshot
             (print (line_suspend_failed tid err)
                (log [EvOpenThread tid h; EvSuspendThread tid DWORD_minus_one;
                      EvCloseHandle h] (SetLastError err w))))
    | Some StopResumeFail =>
        LoopReturn 1
          (CloseHandle snapshot
             (print (line_resume_failed tid ERROR_ACCESS_DENIED)
                (log [EvOpenThread tid h; EvSuspendThread tid (Z.of_nat c);
                      EvResumeThread tid DWORD_minus_one; EvCloseHandle h]
                   (SetLastError ERROR_ACCESS_DENIED
                      (set_threads
                         (update_thread tid suspend_one (threads w)) w)))))
    end
  else status_loop pid snapshot rest f a (log [EvThread32Next] w).
Proof.
  cbn [status_loop]. unfold owned.
  destruct (th32OwnerProcessID e =? pid); [|reflexivity].
  cbv zeta. unfold classify, count_of, OpenThread.
  destruct (find_thread (th32ThreadID e) (threads w)) as [t|] eqn:F.
  2:{ reflexivity. }
  destruct (th_open_ok t) eqn:Ho; cbn [negb]; [|reflexivity].
  unfold alloc_handle. cbn [fst snd].
  set (tid := th32ThreadID e) in *.
  set (hs := handles w) in *.
  set (w1 := log _ (set_handles _ w)).
  assert (L1 : lookup_handle (Z.pos (fresh_handle hs)) (handles w1)
               = Some (HThread tid)) by apply lookup_fresh.
  assert (F1 : find_thread tid (threads w1) = Some t) by exact F.
  change (Z.pos (fresh_handle hs) =? NULL) with false. cbv iota.
  destruct (th_suspend_ok t) eqn:Hs; cbn [negb].
  2:{ rewrite (SuspendThread_fail _ _ _ _ L1 F1) by (rewrite Hs; reflexivity).
      rewrite Z.eqb_refl, Hs.
      rewrite (CloseHandle_fresh hs (HThread tid)) by reflexivity.
      do 2 f_equal. subst w1 hs. world_eq. }
  destruct (th_count t <? MAXIMUM_SUSPEND_COUNT)%nat eqn:Hc; cbn [negb].
  2:{ rewrite (SuspendThread_fail _ _ _ _ L1 F1) by (rewrite Hs, Hc; reflexivity).
      rewrite Z.eqb_refl, Hs.
      rewrite (CloseHandle_fresh hs (HThread tid)) by reflexivity.
      do 2 f_equal. subst w1 hs. world_eq. }
  apply Nat.ltb_lt in Hc.
  rewrite (SuspendThread_ok _ _ _ _ L1 F1 Hs Hc).
  rewrite count_is_not_failure by lia.
  set (w2 := log _ (set_threads _ w1)).
  assert (L2 : lookup_handle (Z.pos (fresh_handle hs)) (handles w2)
               = Some (HThread tid)) by apply lookup_fresh.
  assert (F2 : find_thread tid (threads w2) = Some (suspend_one t)).
  { apply find_update; [exact F|apply suspend_one_id]. }
  assert (C2 : th_count (suspend_one t) = S (th_count t)).
  { unfold suspend_one. apply Nat.ltb_lt in Hc. rewrite Hc. reflexivity. }
  assert (R2 : th_resume_ok (suspend_one t) = th_resume_ok t).
  { unfold suspend_one. destruct (_ <? _)%nat; reflexivity. }
  destruct (th_resume_ok t) eqn:Hr; cbn [negb].
  2:{ rewrite (ResumeThread_fail _ _ _ _ L2 F2) by congruence.
      rewrite Z.eqb_refl.
      rewrite (CloseHandle_fresh hs (HThread tid)) by reflexivity.
      do 2 f_equal. subst w2 w1 hs. world_eq. }
  rewrite (ResumeThread_ok _ _ _ _ L2 F2) by congruence.
  rewrite C2, count_is_not_failure by (unfold MAXIMUM_SUSPEND_COUNT in *; lia).
  rewrite (CloseHandle_fresh hs (HThread tid)) by reflexivity.
  assert (U : update_thread tid resume_one (threads w2) = threads w).
  { apply (update_resume_suspend tid (threads w) t F Hc). }
  assert (W : log [EvCloseHandle (Z.pos (fresh_handle hs))]
                (set_handles hs
                   (log [EvResumeThread tid (Z.of_nat (S (th_count t)))]
                      (set_threads (update_thread tid resume_one (threads w2))
                         w2)))
              = log (probe_events (Z.pos (fresh_handle hs)) (th_count t) tid)
                    w).
  { rewrite U. unfold probe_events. subst w2 w1 hs. world_eq. }
  rewrite W.
  destruct (th_count t) as [|n] eqn:Hn.
  - reflexivity.
  - change (Z.of_nat (S n) =? 0) with false. cbv iota.
    rewrite Nat.eqb_refl || idtac. unfold Thread32Next. rewrite log_log.
    reflexivity.
Qed.

(** The loop from any cursor position, in one expression. *)
Lemma status_loop_summary pid snapshot es : forall f a w,
  status_loop pid snapshot es f a w =
  let ht := Zpos (fresh_handle (handles w)) in
  let '(pre, x) := first_stop (threads w) pid es in
  match x with
  | None =>
      LoopDone (f || existsb (owned pid) es) a
               (log (pass_events ht (threads w) pid pre) w)
  | Some (e, s, _) =>
      let tid := th32ThreadID e in
      let tr := pass_events ht (threads w) pid pre
                  ++ stop_events ht (count_of (threads w) tid) tid s in
      match s with
      | StopRunning => LoopDone true false (log tr w)
      | _ => LoopReturn 1
               (CloseHandle snapshot
                  (print (stop_line tid s) (log tr (stop_state tid s w))))
      end
  end.
Proof.
  induction es as [|e es IH]; intros f a w.
  - cbn. rewrite log_nil, orb_false_r. reflexivity.
  - rewrite status_loop_cons. cbn [first_stop existsb]. unfold stop_at.
    destruct (owned pid e) eqn:Ho.
    + cbv zeta.
      destruct (classify (threads w) (th32ThreadID e)) as [s|] eqn:C.
      * destruct s; cbn [pass_events flat_map app stop_events stop_line
                         stop_state]; reflexivity.
      * rewrite IH. cbn [threads handles log]. cbv zeta.
        destruct (first_stop (threads w) pid es) as [pre [[[e' s] post]|]].
        -- cbn [pass_events flat_map]. rewrite Ho.
           destruct s; rewrite ?log_log, <- ?app_assoc;
             try reflexivity; do 3 f_equal; cbn [stop_state];
             world_eq.
        -- cbn [pass_events flat_map]. rewrite Ho, log_log, orb_true_r.
           reflexivity.
    + rewrite IH. cbn [threads handles log]. cbv zeta.
      destruct (first_stop (threads w) pid es) as [pre [[[e' s] post]|]].
      * cbn [pass_events flat_map]. rewrite Ho.
        destruct s; rewrite ?log_log, <- ?app_assoc;
          try reflexivity; do 3 f_equal; cbn [stop_state]; world_eq.
      * cbn [pass_events flat_map]. rewrite Ho, log_log. reflexivity.
Qed.

(** [status] computes its summary. *)
Lemma status_summary_correct pid w : status pid w = status_summary pid w.
Proof.
  unfold status, status_summary, CreateToolhelp32Snapshot.
  destruct (snapshot_ok w) eqn:S; [|reflexivity].
  unfold alloc_handle, Thread32First. cbn [fst snd handles log set_handles].
  change (Z.pos (fresh_handle (handles w)) =? INVALID_HANDLE_VALUE)
    with false. cbv iota.
  rewrite lookup_fresh, status_loop_summary.
  cbn [threads handles log set_handles]. cbv zeta.
  fold (snapshot_of w).
  destruct (first_stop (threads w) pid (snapshot_of w))
    as [pre [[[e s] post]|]].
  - destruct s;
      rewrite (CloseHandle_fresh (handles w)
                 (HSnapshot (snapshot_of w))) by reflexivity;
      cbn [negb stop_code stop_line stop_state]; f_equal; world_eq.
  - rewrite (CloseHandle_fresh (handles w)
               (HSnapshot (snapshot_of w))) by reflexivity.
    cbn [orb].
    destruct (existsb (owned pid) (snapshot_of w)); cbn [negb];
      f_equal; world_eq.
Qed.

End LoopFacts.

(* ================================================================== *)
(** ** [apply], and the two operations after one another *)
(* ================================================================== *)

Module ApplyFacts.
Import Win32 Susres Observe Win32Facts LoopFacts.

Lemma func_of_sus_res_name suspend :
  func_of_name (sus_res_name suspend) = Some (sus_res_of suspend).
Proof. destruct suspend; reflexivity. Qed.

(** What the rest of [apply] does with the [NULL] that a failed
    OpenProcess returns: the test against [INVALID_HANDLE_VALUE] lets it
    through, the primitive is called on it and fails. *)
Lemma apply_on_null pid suspend err w :
  (let '(proc, w) :=
     (NULL, log [EvOpenProcess pid NULL]
                (SetLastError err
                   (log [EvGetProcAddress (sus_res_name suspend) true] w)))
   in
   if proc =? INVALID_HANDLE_VALUE then
     (1, print [Lit "Failed to OpenProcess("; Dec pid; Lit "): ";
                Strerror (GetLastError w); NL] w)
   else
     let '(res, w) := call_sus_res (sus_res_of suspend) proc w in
     let w := if negb (res =? 0)
              then print [Str (sus_res_name suspend); Lit "("; Dec pid;
                          Lit ") returns "; Hex res; Lit ": "; Strerror res;
                          NL] w
              else w in
     let w := CloseHandle proc w in
     (if res =? 0 then 0 else 1, w))
  = (1, print (line_returns (sus_res_name suspend) pid STATUS_INVALID_HANDLE)
          (log [EvGetProcAddress (sus_res_name suspend) true;
                EvOpenProcess pid NULL;
                EvNtCall (sus_res_of suspend) NULL STATUS_INVALID_HANDLE;
                EvCloseHandle NULL]
               (SetLastError ERROR_INVALID_HANDLE w))).
Proof.
  cbv beta iota.
  change (NULL =? INVALID_HANDLE_VALUE) with false. cbv iota.
  unfold call_sus_res, CloseHandle.
  change (lookup_handle NULL) with (fun _ : list (positive * hobj) =>
                                      @None hobj).
  cbv beta iota.
  change (STATUS_INVALID_HANDLE =? 0) with false. cbn [negb].
  f_equal. unfold line_returns. world_eq.
Qed.

(** [apply] computes its summary. *)
Lemma apply_summary_correct pid suspend w :
  apply pid suspend w = apply_summary pid suspend w.
Proof.
  unfold apply, apply_summary, GetProcAddress, exported.
  destruct (existsb (String.eqb (sus_res_name suspend)) (ntdll_exports w));
    [|reflexivity].
  rewrite func_of_sus_res_name.
  unfold OpenProcess, can_open, find_process. cbn [procs log].
  destruct (find (fun p => pr_id p =? pid) (procs w)) as [p|].
  - destruct (pr_access p).
    + unfold alloc_handle. cbn [fst snd handles log].
      change (Z.pos (fresh_handle (handles w)) =? INVALID_HANDLE_VALUE)
        with false. cbv iota.
      unfold call_sus_res. cbn [handles log set_handles].
      rewrite lookup_fresh. cbn [negb Z.eqb].
      rewrite (CloseHandle_fresh (handles w) (HProcess pid)) by reflexivity.
      f_equal. unfold adjust_process. world_eq.
    + exact (apply_on_null pid suspend ERROR_ACCESS_DENIED w).
  - exact (apply_on_null pid suspend ERROR_INVALID_PARAMETER w).
Qed.

End ApplyFacts.

(* ================================================================== *)
(** ** Reading the call log *)
(* ================================================================== *)

Module TraceFacts.
Import Win32 Susres Observe Win32Facts.

Lemma classify_none_count ts tid :
  classify ts tid = None ->
  (1 <= count_of ts tid < MAXIMUM_SUSPEND_COUNT)%nat.
Proof.
  unfold classify, count_of. destruct (find_thread tid ts) as [t|];
    [|discriminate].
  destruct (th_open_ok t), (th_suspend_ok t); cbn [negb]; try discriminate.
  destruct (th_count t <? MAXIMUM_SUSPEND_COUNT)%nat eqn:C; cbn [negb];
    try discriminate.
  destruct (th_resume_ok t); cbn [negb]; try discriminate.
  destruct (th_count t =? 0)%nat eqn:Z; try discriminate.
  apply Nat.ltb_lt in C. apply Nat.eqb_neq in Z. lia.
Qed.

Lemma classify_running_count ts tid :
  classify ts tid = Some StopRunning -> count_of ts tid = 0%nat.
Proof.
  unfold classify, count_of. destruct (find_thread tid ts) as [t|];
    [|discriminate].
  destruct (th_open_ok t), (th_suspend_ok t); cbn [negb]; try discriminate.
  destruct (th_count t <? MAXIMUM_SUSPEND_COUNT)%nat; cbn [negb];
    try discriminate.
  destruct (th_resume_ok t); cbn [negb]; try discriminate.
  destruct (th_count t =? 0)%nat eqn:Z; try discriminate.
  intros _. apply Nat.eqb_eq in Z. exact Z.
Qed.

Lemma classify_resume_fail_count ts tid :
  classify ts tid = Some StopResumeFail ->
  (count_of ts tid < MAXIMUM_SUSPEND_COUNT)%nat.
Proof.
  unfold classify, count_of. destruct (find_thread tid ts) as [t|];
    [|discriminate].
  destruct (th_open_ok t), (th_suspend_ok t); cbn [negb]; try discriminate.
  destruct (th_count t <? MAXIMUM_SUSPEND_COUNT)%nat eqn:C; cbn [negb];
    try discriminate.
  intros _. apply Nat.ltb_lt in C. exact C.
Qed.

(** *** Where the loop stops *)

Lemma first_stop_split ts pid es : forall pre x,
  first_stop ts pid es = (pre, x) ->
  Forall (fun e => stop_at ts pid e = None) pre
  /\ match x with
     | None => es = pre
     | Some (e, s, post) => es = pre ++ e :: post /\ stop_at ts pid e = Some s
     end.
Proof.
  induction es as [|e es IH]; cbn [first_stop]; intros pre x H.
  - injection H as <- <-. auto.
  - destruct (stop_at ts pid e) as [s|] eqn:S.
    + injection H as <- <-. auto.
    + destruct (first_stop ts pid es) as [pre' x'].
      injection H as <- <-. destruct (IH pre' x' eq_refl) as [F X].
      split; [constructor; assumption|].
      destruct x' as [[[e' s'] post]|].
      * destruct X as [-> X]. auto.
      * subst. reflexivity.
Qed.

Lemma first_stop_none ts pid es :
  Forall (fun e => stop_at ts pid e = None) es ->
  first_stop ts pid es = (es, None).
Proof.
  induction 1 as [|e es H _ IH]; cbn [first_stop]; [reflexivity|].
  rewrite H, IH. reflexivity.
Qed.


Lemma not_owned_passes ts pid es :
  existsb (owned pid) es = false ->
  Forall (fun e => stop_at ts pid e = None) es.
Proof.
  induction es as [|e es IH]; cbn [existsb]; intros H; constructor.
  - unfold stop_at. apply orb_false_elim in H. destruct H as [-> _].
    reflexivity.
  - apply IH. apply orb_false_elim in H. tauto.
Qed.



(** *** The observers on the calls of a stretch the loop passes *)

Section PassEvents.
Variables (p : positive) (ts : list thread) (pid : DWORD).

Lemma open_attempts_pass es :
  open_attempts (pass_events (Zpos p) ts pid es) = owned_tids pid es.
Proof.
  unfold owned_tids. induction es as [|e es IH]; [reflexivity|].
  cbn [pass_events flat_map filter]. unfold open_attempts in *.
  rewrite flat_map_app. fold (pass_events (Zpos p) ts pid es). rewrite IH.
  destruct (owned pid e); reflexivity.
Qed.

Lemma opened_threads_pass es :
  opened_threads (pass_events (Zpos p) ts pid es) = owned_tids pid es.
Proof.
  unfold owned_tids. induction es as [|e es IH]; [reflexivity|].
  cbn [pass_events flat_map filter]. unfold opened_threads in *.
  rewrite flat_map_app. fold (pass_events (Zpos p) ts pid es). rewrite IH.
  destruct (owned pid e); reflexivity.
Qed.

Lemma suspended_tids_pass es :
  suspended_tids (pass_events (Zpos p) ts pid es) = owned_tids pid es.
Proof.
  unfold owned_tids. induction es as [|e es IH]; [reflexivity|].
  cbn [pass_events flat_map filter]. unfold suspended_tids in *.
  rewrite flat_map_app. fold (pass_events (Zpos p) ts pid es). rewrite IH.
  destruct (owned pid e); reflexivity.
Qed.

Lemma resumed_tids_pass es :
  resumed_tids (pass_events (Zpos p) ts pid es) = owned_tids pid es.
Proof.
  unfold owned_tids. induction es as [|e es IH]; [reflexivity|].
  cbn [pass_events flat_map filter]. unfold resumed_tids in *.
  rewrite flat_map_app. fold (pass_events (Zpos p) ts pid es). rewrite IH.
  destruct (owned pid e); reflexivity.
Qed.

Lemma process_calls_pass es :
  process_calls (pass_events (Zpos p) ts pid es) = [].
Proof.
  induction es as [|e es IH]; [reflexivity|].
  cbn [pass_events flat_map]. unfold process_calls in *.
  rewrite filter_app. fold (pass_events (Zpos p) ts pid es). rewrite IH.
  destruct (owned pid e); reflexivity.
Qed.

Lemma next_calls_pass es :
  next_calls (pass_events (Zpos p) ts pid es) = List.length es.
Proof.
  induction es as [|e es IH]; [reflexivity|].
  cbn [pass_events flat_map]. unfold next_calls in *.
  rewrite filter_app, length_app. fold (pass_events (Zpos p) ts pid es).
  rewrite IH. destruct (owned pid e); reflexivity.
Qed.

Lemma probed_pass es :
  Forall (fun e => stop_at ts pid e = None) es ->
  probed (pass_events (Zpos p) ts pid es) = owned_tids pid es.
Proof.
  unfold owned_tids. induction 1 as [|e es H _ IH]; [reflexivity|].
  cbn [pass_events flat_map filter]. unfold probed in *.
  rewrite flat_map_app. fold (pass_events (Zpos p) ts pid es). rewrite IH.
  unfold stop_at in H. destruct (owned pid e); [|reflexivity].
  apply classify_none_count in H.
  cbn [probe_events flat_map app]. rewrite count_is_not_failure by lia.
  reflexivity.
Qed.

Lemma resume_failed_pass es :
  Forall (fun e => stop_at ts pid e = None) es ->
  resume_failed (pass_events (Zpos p) ts pid es) = false.
Proof.
  induction 1 as [|e es H _ IH]; [reflexivity|].
  cbn [pass_events flat_map]. unfold resume_failed in *.
  rewrite existsb_app. fold (pass_events (Zpos p) ts pid es). rewrite IH.
  unfold stop_at in H. destruct (owned pid e); [|reflexivity].
  apply classify_none_count in H.
  cbn [probe_events existsb app].
  rewrite count_is_not_failure by lia. reflexivity.
Qed.

Lemma passed_are_suspended es :
  Forall (fun e => stop_at ts pid e = None) es ->
  Forall (fun tid => (1 <= count_of ts tid)%nat) (owned_tids pid es).
Proof.
  unfold owned_tids. induction 1 as [|e es H _ IH]; cbn [filter map];
    [constructor|].
  unfold stop_at in H. destruct (owned pid e); [|exact IH].
  constructor; [|exact IH]. apply classify_none_count in H. lia.
Qed.
End PassEvents.

Lemma owned_tids_app pid a b :
  owned_tids pid (a ++ b) = owned_tids pid a ++ owned_tids pid b.
Proof. unfold owned_tids. rewrite filter_app, map_app. reflexivity. Qed.

(** *** The observers on the calls at the entry where the loop stops *)

Section StopEvents.
Variables (p : positive) (ts : list thread) (tid : DWORD) (s : stop).

Lemma open_attempts_stop :
  open_attempts (stop_events (Zpos p) (count_of ts tid) tid s) = [tid].
Proof. destruct s; reflexivity. Qed.

Lemma suspended_opened_stop :
  suspended_tids (stop_events (Zpos p) (count_of ts tid) tid s)
  = opened_threads (stop_events (Zpos p) (count_of ts tid) tid s).
Proof. destruct s; reflexivity. Qed.

Lemma opened_threads_stop :
  opened_threads (stop_events (Zpos p) (count_of ts tid) tid s)
  = match s with StopOpenFail _ => [] | _ => [tid] end.
Proof. destruct s; reflexivity. Qed.

Lemma resumed_probed_stop :
  classify ts tid = Some s ->
  resumed_tids (stop_events (Zpos p) (count_of ts tid) tid s)
  = probed (stop_events (Zpos p) (count_of ts tid) tid s).
Proof.
  intros Hclass.
  destruct s;
    cbn [stop_events probe_events resumed_tids probed flat_map app].
  - reflexivity.
  - rewrite Z.eqb_refl. reflexivity.
  - apply classify_resume_fail_count in Hclass.
    rewrite count_is_not_failure by lia. reflexivity.
  - apply classify_running_count in Hclass.
    rewrite count_is_not_failure by lia. reflexivity.
Qed.

Lemma resume_failed_stop :
  resume_failed (stop_events (Zpos p) (count_of ts tid) tid s) = false ->
  s <> StopResumeFail.
Proof.
  intros H ->. cbn in H. discriminate H.
Qed.

Lemma process_calls_stop :
  process_calls (stop_events (Zpos p) (count_of ts tid) tid s) = [].
Proof. destruct s; reflexivity. Qed.
End StopEvents.

Lemma distinct_NoDup l : distinct l = true -> NoDup l.
Proof.
  induction l as [|x l IH]; cbn [distinct]; intros H; constructor.
  - apply andb_prop in H. destruct H as [H _].
    apply negb_true_iff in H. intros Hin.
    assert (E : existsb (Z.eqb x) l = true).
    { apply existsb_exists. exists x. split; [exact Hin|apply Z.eqb_refl]. }
    congruence.
  - apply IH. apply andb_prop in H. tauto.
Qed.

Lemma snapshot_tids w :
  map th32ThreadID (snapshot_of w) = map th_id (threads w).
Proof. unfold snapshot_of. rewrite map_map. reflexivity. Qed.

Lemma NoDup_map_filter {A B} (f : A -> B) (q : A -> bool) l :
  NoDup (map f l) -> NoDup (map f (filter q l)).
Proof.
  induction l as [|x l IH]; cbn [map filter]; intros H; [constructor|].
  inversion H as [|? ? Hx Hl]; subst.
  destruct (q x); [|auto]. cbn [map]. constructor; [|auto].
  intros Hin. apply Hx. apply in_map_iff in Hin.
  destruct Hin as (y & E & Hy). apply filter_In in Hy.
  apply in_map_iff. exists y. tauto.
Qed.

(** The target's threads in any initial stretch of the snapshot are
    pairwise different. *)
Lemma owned_tids_prefix_NoDup pid w a b :
  unique_tids w = true -> snapshot_of w = a ++ b ->
  NoDup (owned_tids pid a).
Proof.
  intros U E. apply distinct_NoDup in U. rewrite <- snapshot_tids, E in U.
  rewrite map_app in U. apply NoDup_app_remove_r in U.
  apply NoDup_map_filter. exact U.
Qed.

Lemma unique_thread ts t t' :
  NoDup (map th_id ts) -> In t ts -> In t' ts -> th_id t = th_id t' -> t = t'.
Proof.
  induction ts as [|x ts IH]; cbn [map]; intros N Ht Ht' E; [destruct Ht|].
  inversion N as [|? ? Hx Hn]; subst.
  destruct Ht as [->|Ht], Ht' as [->|Ht'].
  - reflexivity.
  - exfalso. apply Hx. rewrite E. apply in_map. exact Ht'.
  - exfalso. apply Hx. rewrite <- E. apply in_map. exact Ht.
  - auto.
Qed.

Lemma find_unique ts t :
  NoDup (map th_id ts) -> In t ts -> find_thread (th_id t) ts = Some t.
Proof.
  intros N Hin. destruct (find_thread (th_id t) ts) as [t'|] eqn:F.
  - f_equal. apply (unique_thread ts); auto.
    + eapply find_thread_In; eauto.
    + eapply find_thread_id; eauto.
  - unfold find_thread in F. pose proof (find_none _ _ F t Hin) as X.
    cbn in X. rewrite Z.eqb_refl in X. discriminate.
Qed.

Lemma find_update_other tid tid' f ts :
  (forall x, th_id (f x) = th_id x) -> tid <> tid' ->
  find_thread tid' (update_thread tid f ts) = find_thread tid' ts.
Proof.
  intros Hf Hne. unfold find_thread.
  induction ts as [|x ts IH]; cbn [update_thread find]; [reflexivity|].
  destruct (th_id x =? tid) eqn:E.
  - cbn [find]. rewrite Hf. apply Z.eqb_eq in E.
    assert (X : (th_id x =? tid') = false) by (apply Z.eqb_neq; lia).
    rewrite X. reflexivity.
  - cbn [find]. rewrite IH. reflexivity.
Qed.

(** An identifier among the target's snapshot entries names a thread the
    target owns. *)
Lemma owned_tid_thread pid w tid :
  In tid (owned_tids pid (snapshot_of w)) ->
  exists t, In t (threads w) /\ th_id t = tid /\ th_owner t = pid.
Proof.
  unfold owned_tids, snapshot_of. intros H. apply in_map_iff in H.
  destruct H as (e & <- & He). apply filter_In in He. destruct He as [He O].
  apply in_map_iff in He. destruct He as (t & <- & Ht).
  exists t. unfold owned in O. cbn in O. apply Z.eqb_eq in O. auto.
Qed.

End TraceFacts.

(* ================================================================== *)
(** ** The status operation *)
(* ================================================================== *)

Module StatusClaims.
Import Win32 Susres Observe Win32Facts LoopFacts TraceFacts.

Lemma calls_stop_state tid s w : calls (stop_state tid s w) = calls w.
Proof. destruct s; reflexivity. Qed.

Lemma stdout_stop_state tid s w : stdout (stop_state tid s w) = stdout w.
Proof. destruct s; reflexivity. Qed.

Lemma handles_stop_state tid s w : handles (stop_state tid s w) = handles w.
Proof. destruct s; reflexivity. Qed.

Lemma new_calls_print_log w x l tr :
  calls x = calls w -> new_calls w (print l (log tr x)) = tr.
Proof. intros H. apply new_calls_app. cbn. rewrite H. reflexivity. Qed.

Lemma new_calls_log w x tr :
  calls x = calls w -> new_calls w (log tr x) = tr.
Proof. intros H. apply new_calls_app. cbn. rewrite H. reflexivity. Qed.

Lemma new_output_print_log w x l tr :
  stdout x = stdout w -> new_output w (print l (log tr x)) = [l].
Proof. intros H. apply new_output_app. cbn. rewrite H. reflexivity. Qed.

Lemma probed_app a b : probed (a ++ b) = probed a ++ probed b.
Proof. apply flat_map_app. Qed.

Lemma open_attempts_app a b :
  open_attempts (a ++ b) = open_attempts a ++ open_attempts b.
Proof. apply flat_map_app. Qed.

Lemma opened_threads_app a b :
  opened_threads (a ++ b) = opened_threads a ++ opened_threads b.
Proof. apply flat_map_app. Qed.

Lemma suspended_tids_app a b :
  suspended_tids (a ++ b) = suspended_tids a ++ suspended_tids b.
Proof. apply flat_map_app. Qed.

Lemma resumed_tids_app a b :
  resumed_tids (a ++ b) = resumed_tids a ++ resumed_tids b.
Proof. apply flat_map_app. Qed.

Lemma process_calls_app a b :
  process_calls (a ++ b) = process_calls a ++ process_calls b.
Proof. apply filter_app. Qed.

Lemma resume_failed_app a b :
  resume_failed (a ++ b) = resume_failed a || resume_failed b.
Proof. apply existsb_app. Qed.

Lemma next_calls_app a b :
  next_calls (a ++ b) = (next_calls a + next_calls b)%nat.
Proof. unfold next_calls. rewrite filter_app, length_app. reflexivity. Qed.

Lemma owned_tids_snoc pid pre e :
  owned pid e = true ->
  owned_tids pid (pre ++ [e]) = owned_tids pid pre ++ [th32ThreadID e].
Proof.
  intros O. rewrite owned_tids_app. unfold owned_tids at 2.
  cbn [filter]. rewrite O. reflexivity.
Qed.

Lemma stop_at_owned ts pid e s : stop_at ts pid e = Some s ->
  owned pid e = true /\ classify ts (th32ThreadID e) = Some s.
Proof. unfold stop_at. destruct (owned pid e); [auto|discriminate]. Qed.

(** The call log of a run that stops at a running thread [tid], after
    passing [pre]: [p0] is the snapshot handle, [p] the thread handle. *)
Lemma running_trace_probed p0 p ts pid pre tid :
  Forall (fun e => stop_at ts pid e = None) pre ->
  probed (([EvCreateToolhelp32Snapshot (Zpos p0); EvThread32First]
             ++ pass_events (Zpos p) ts pid pre)
            ++ stop_events (Zpos p) 0 tid StopRunning
            ++ [EvCloseHandle (Zpos p0)])
  = owned_tids pid pre ++ [tid].
Proof.
  intros F. rewrite !probed_app, probed_pass by exact F. reflexivity.
Qed.

Lemma running_trace_attempts p0 p ts pid pre tid :
  open_attempts (([EvCreateToolhelp32Snapshot (Zpos p0); EvThread32First]
                    ++ pass_events (Zpos p) ts pid pre)
                   ++ stop_events (Zpos p) 0 tid StopRunning
                   ++ [EvCloseHandle (Zpos p0)])
  = owned_tids pid pre ++ [tid].
Proof. rewrite !open_attempts_app, open_attempts_pass. reflexivity. Qed.

Lemma running_trace_next p0 p ts pid pre tid :
  next_calls (([EvCreateToolhelp32Snapshot (Zpos p0); EvThread32First]
                 ++ pass_events (Zpos p) ts pid pre)
                ++ stop_events (Zpos p) 0 tid StopRunning
                ++ [EvCloseHandle (Zpos p0)])
  = List.length pre.
Proof.
  rewrite !next_calls_app, next_calls_pass. cbn. lia.
Qed.

(** C1, as the code has it.  When the snapshot holds a thread of [pid]
    and [status] runs to its end (exit code 0: no call of a probe failed),
    it reports T or R.  It reports T if and only if every thread it probed
    had a suspend count of at least 1 before the probe, and then it has
    probed every thread of the target in the snapshot; it reports R if and
    only if some probed thread had count 0.  When it reports R the snapshot
    splits into the entries passed, the running thread's entry and the
    entries never reached: the threads opened and probed are exactly the
    target's threads up to and including the running one, and Thread32Next
    was called once per entry passed, never after the running thread. *)
Theorem status_reports_T_or_short_circuits_R pid w :
  owns_thread pid w = true ->
  fst (status pid w) = 0 ->
  let w' := snd (status pid w) in
  let tr := new_calls w w' in
  (reports line_T w w' \/ reports line_R w w')
  /\ (reports line_T w w' <->
      Forall (fun tid => (1 <= suspend_count w tid)%nat) (probed tr))
  /\ (reports line_T w w' -> probed tr = owned_tids pid (snapshot_of w))
  /\ (reports line_R w w' <->
      Exists (fun tid => suspend_count w tid = 0%nat) (probed tr))
  /\ (reports line_R w w' ->
      exists pre e post,
        snapshot_of w = pre ++ e :: post
        /\ owned pid e = true
        /\ suspend_count w (th32ThreadID e) = 0%nat
        /\ Forall (fun tid => (1 <= suspend_count w tid)%nat)
                  (owned_tids pid pre)
        /\ open_attempts tr = owned_tids pid (pre ++ [e])
        /\ probed tr = owned_tids pid (pre ++ [e])
        /\ next_calls tr = List.length pre).
Proof.
  intros Hown Hexit. cbv zeta. unfold reports, suspend_count.
  rewrite status_summary_correct in *. unfold status_summary in *.
  destruct (snapshot_ok w); [|discriminate Hexit].
  unfold owns_thread in Hown. cbv zeta in *.
  destruct (first_stop (threads w) pid (snapshot_of w))
    as [pre [[[e s] post]|]] eqn:Hfs;
    destruct (first_stop_split _ _ _ _ _ Hfs) as [Hpre Hes];
    cbn [fst snd] in *.
  - destruct Hes as [Hes Hstop].
    destruct (stop_at_owned _ _ _ _ Hstop) as [Ho Hc].
    destruct s; try discriminate Hexit.
    pose proof (classify_running_count _ _ Hc) as Hz.
    rewrite new_output_print_log by reflexivity.
    rewrite new_calls_print_log by reflexivity.
    rewrite Hz.
    rewrite (running_trace_probed _ _ _ _ _ _ Hpre).
    rewrite (running_trace_attempts _ _ (threads w) pid pre).
    rewrite (running_trace_next _ _ (threads w) pid pre).
    rewrite <- owned_tids_snoc by exact Ho.
    split; [right; reflexivity|]. split; [|split; [|split]].
    + split; [discriminate|]. intros F. exfalso.
      rewrite owned_tids_snoc in F by exact Ho.
      apply Forall_app in F. destruct F as [_ F].
      inversion F; subst. lia.
    + discriminate.
    + split; [|reflexivity]. intros _.
      rewrite owned_tids_snoc by exact Ho. apply Exists_app. right.
      constructor. exact Hz.
    + intros _. exists pre, e, post.
      repeat split; try assumption.
      apply passed_are_suspended. exact Hpre.
  - subst pre. rewrite Hown in *.
    rewrite new_output_print_log by reflexivity.
    rewrite new_calls_print_log by reflexivity.
    rewrite !probed_app, probed_pass by exact Hpre. cbn [probed flat_map app].
    rewrite app_nil_r.
    pose proof (passed_are_suspended _ _ _ Hpre) as Hs.
    split; [left; reflexivity|]. split; [|split; [|split]].
    + split; [intros _; exact Hs|reflexivity].
    + reflexivity.
    + split; [discriminate|]. intros X. exfalso.
      apply Exists_exists in X. destruct X as (tid & Hin & Hz).
      rewrite Forall_forall in Hs. specialize (Hs tid Hin). lia.
    + discriminate.
Qed.

(** On every other exit [status] prints one diagnostic and no verdict. *)
Lemma status_error_prints_no_verdict pid w :
  fst (status pid w) <> 0 ->
  ~ In line_T (new_output w (snd (status pid w)))
  /\ ~ In line_R (new_output w (snd (status pid w))).
Proof.
  rewrite status_summary_correct. unfold status_summary.
  destruct (snapshot_ok w).
  - cbv zeta.
    destruct (first_stop (threads w) pid (snapshot_of w))
      as [pre [[[e s] post]|]]; cbn [fst snd].
    + rewrite new_output_print_log by apply stdout_stop_state.
      destruct s; cbn [stop_code stop_line]; intros H;
        try (exfalso; apply H; reflexivity);
        split; intros [X|[]]; discriminate X.
    + rewrite new_output_print_log by reflexivity.
      destruct (existsb (owned pid) (snapshot_of w)); intros H;
        try (exfalso; apply H; reflexivity);
        split; intros [X|[]]; discriminate X.
  - cbn [fst snd]. rewrite new_output_print_log by reflexivity.
    intros _. split; intros [X|[]]; discriminate X.
Qed.

Lemma status_sample_short_circuits :
  owns_thread 7 sample_world = true
  /\ fst (status 7 sample_world) = 0
  /\ (reports line_R sample_world (snd (status 7 sample_world)) <->
      Exists (fun tid => suspend_count sample_world tid = 0%nat)
             (probed (new_calls sample_world (snd (status 7 sample_world))))).
Proof.
  split; [reflexivity|split; [reflexivity|]].
  destruct (status_reports_T_or_short_circuits_R
              7 sample_world eq_refl eq_refl) as (_ & _ & _ & H & _).
  exact H.
Defined.

(** C1, as stated, fails where a probe call fails: in the guarded world
    [status] probes threads 71 and 72, both suspended once, then cannot open
    thread 73 and returns 1 with a diagnostic.  Every thread it probed had
    a count of at least 1, and it does not report T. *)
Lemma verdict_claim_fails_on_error_exit :
  owns_thread 7 guarded_world = true
  /\ ~ verdict_claim 7 guarded_world
  /\ probed (new_calls guarded_world (snd (status 7 guarded_world)))
     = [71; 72]
  /\ suspend_count guarded_world 71 = 1%nat
  /\ suspend_count guarded_world 72 = 1%nat
  /\ status 7 guarded_world
     = (1, snd (status 7 guarded_world))
  /\ new_output guarded_world (snd (status 7 guarded_world))
     = [line_open_thread_failed 73 ERROR_ACCESS_DENIED].
Proof.
  assert (E : probed (new_calls guarded_world
                        (snd (status 7 guarded_world))) = [71; 72])
    by (vm_compute; reflexivity).
  split; [vm_compute; reflexivity|].
  split; [|split; [exact E|]; repeat (split; [vm_compute; reflexivity|]);
           vm_compute; reflexivity].
  intros H. specialize (H eq_refl). cbv zeta in H. destruct H as [_ H].
  rewrite E in H.
  assert (F : Forall (fun tid => (1 <= suspend_count guarded_world tid)%nat)
                     [71; 72]).
  { constructor; [vm_compute; lia|].
    constructor; [vm_compute; lia|constructor]. }
  specialize (H F). unfold reports in H. vm_compute in H. discriminate H.
Qed.

Lemma status_without_threads pid w :
  snapshot_ok w = true ->
  owns_thread pid w = false ->
  fst (status pid w) = 1
  /\ new_output w (snd (status pid w)) = [line_no_threads pid].
Proof.
  intros Hs Hown.
  rewrite status_summary_correct. unfold status_summary. rewrite Hs.
  unfold owns_thread in Hown. cbv zeta.
  rewrite (first_stop_none _ _ _ (not_owned_passes _ _ _ Hown)), Hown.
  cbn [fst snd]. rewrite new_output_print_log by reflexivity. auto.
Qed.

(** C5.  When the snapshot succeeds and holds no thread owned by [pid],
    [status] exits with 1 and prints the "No threads found" line and nothing
    else: neither T nor R. *)
Theorem status_no_threads_found pid w :
  snapshot_ok w = true ->
  owns_thread pid w = false ->
  let w' := snd (status pid w) in
  fst (status pid w) = 1
  /\ new_output w w' = [line_no_threads pid]
  /\ ~ In line_T (new_output w w')
  /\ ~ In line_R (new_output w w').
Proof.
  intros Hs Hown. cbv zeta.
  destruct (status_without_threads pid w Hs Hown) as [H1 H2].
  rewrite H2. repeat split; try assumption.
  - intros [H|[]]. discriminate H.
  - intros [H|[]]. discriminate H.
Qed.

Lemma status_no_threads_found_sample :
  snapshot_ok sample_world = true
  /\ owns_thread 8 sample_world = false
  /\ fst (status 8 sample_world) = 1
  /\ new_output sample_world (snd (status 8 sample_world))
     = [line_no_threads 8].
Proof.
  split; [reflexivity|split; [reflexivity|]].
  destruct (status_no_threads_found 8 sample_world eq_refl eq_refl)
    as (H1 & H2 & _).
  split; [exact H1|exact H2].
Defined.

(** C2, as the code has it.  Every thread [status] opens gets one
    SuspendThread, and one ResumeThread exactly when that SuspendThread
    returned a previous count; no thread is opened twice; and when no
    ResumeThread call fails the thread table after [status] is the thread
    table before it, whatever the exit. *)
Theorem status_probe_is_net_zero pid w :
  unique_tids w = true ->
  let w' := snd (status pid w) in
  let tr := new_calls w w' in
  suspended_tids tr = opened_threads tr
  /\ resumed_tids tr = probed tr
  /\ NoDup (opened_threads tr)
  /\ (resume_failed tr = false -> threads w' = threads w).
Proof.
  intros U. cbv zeta.
  rewrite status_summary_correct. unfold status_summary.
  destruct (snapshot_ok w).
  2:{ cbn [fst snd]. rewrite new_calls_print_log by reflexivity.
      cbn. repeat split; auto. constructor. }
  cbv zeta.
  destruct (first_stop (threads w) pid (snapshot_of w))
    as [pre [[[e s] post]|]] eqn:Hfs;
    destruct (first_stop_split _ _ _ _ _ Hfs) as [Hpre Hes];
    cbn [fst snd].
  - destruct Hes as [Hes Hstop].
    destruct (stop_at_owned _ _ _ _ Hstop) as [Ho Hc].
    rewrite new_calls_print_log by apply calls_stop_state.
    rewrite !suspended_tids_app, !opened_threads_app, !resumed_tids_app,
      !probed_app, !resume_failed_app.
    rewrite suspended_tids_pass, opened_threads_pass, resumed_tids_pass.
    rewrite probed_pass, resume_failed_pass by exact Hpre.
    rewrite suspended_opened_stop.
    rewrite (resumed_probed_stop _ _ _ _ Hc).
    cbn [suspended_tids opened_threads resumed_tids probed resume_failed
         flat_map existsb app orb].
    rewrite !app_nil_r, orb_false_r.
    repeat split.
    + assert (N : NoDup (owned_tids pid (pre ++ [e]))).
      { apply (owned_tids_prefix_NoDup pid w _ post U).
        rewrite Hes, <- app_assoc. reflexivity. }
      rewrite owned_tids_snoc in N by exact Ho.
      rewrite opened_threads_stop.
      destruct s; [rewrite app_nil_r; apply NoDup_app_remove_r in N|..];
        exact N.
    + intros R. apply resume_failed_stop in R.
      destruct s; try reflexivity. congruence.
  - rewrite new_calls_print_log by reflexivity.
    rewrite !suspended_tids_app, !opened_threads_app, !resumed_tids_app,
      !probed_app, !resume_failed_app.
    rewrite suspended_tids_pass, opened_threads_pass, resumed_tids_pass.
    rewrite probed_pass, resume_failed_pass by exact Hpre.
    cbn [suspended_tids opened_threads resumed_tids probed resume_failed
         flat_map existsb app orb].
    rewrite !app_nil_r. repeat split.
    apply (owned_tids_prefix_NoDup pid w pre [] U).
    rewrite app_nil_r. exact Hes.
Qed.

Lemma status_probe_is_net_zero_sample :
  unique_tids guarded_world = true
  /\ suspended_tids (new_calls guarded_world (snd (status 7 guarded_world)))
     = [71; 72]
  /\ threads (snd (status 7 guarded_world)) = threads guarded_world.
Proof.
  split; [reflexivity|].
  destruct (status_probe_is_net_zero 7 guarded_world eq_refl)
    as (H1 & _ & _ & H4).
  split; [rewrite H1; reflexivity|apply H4; reflexivity].
Defined.

(** C2, as stated, fails on both error exits of the probe itself: at a
    thread already at the maximum suspend count SuspendThread fails and no
    ResumeThread follows, and where ResumeThread fails the thread keeps the
    suspend the probe added. *)
Lemma status_probe_not_net_zero_on_error :
  ~ net_zero_claim 7 saturated_world /\ ~ net_zero_claim 7 stuck_world.
Proof.
  split; intros H; specialize (H 71); vm_compute in H;
    destruct (H (or_introl eq_refl)) as (_ & H2 & H3); discriminate.
Qed.


(** Every identifier [status] hands to OpenThread belongs to a snapshot
    entry owned by the target, and the suspends and resumes go to threads
    it tried to open. *)
Lemma status_thread_calls pid w :
  let tr := new_calls w (snd (status pid w)) in
  incl (open_attempts tr) (owned_tids pid (snapshot_of w))
  /\ incl (suspended_tids tr) (open_attempts tr)
  /\ incl (resumed_tids tr) (open_attempts tr)
  /\ process_calls tr = [].
Proof.
  cbv zeta. rewrite status_summary_correct. unfold status_summary.
  destruct (snapshot_ok w).
  2:{ cbn [fst snd]. rewrite new_calls_print_log by reflexivity.
      cbn. repeat split; auto using incl_nil_l. }
  cbv zeta.
  destruct (first_stop (threads w) pid (snapshot_of w))
    as [pre [[[e s] post]|]] eqn:Hfs;
    destruct (first_stop_split _ _ _ _ _ Hfs) as [Hpre Hes];
    cbn [fst snd].
  - destruct Hes as [Hes Hstop].
    destruct (stop_at_owned _ _ _ _ Hstop) as [Ho Hc].
    rewrite new_calls_print_log by apply calls_stop_state.
    rewrite !suspended_tids_app, !open_attempts_app, !resumed_tids_app,
      !process_calls_app.
    rewrite suspended_tids_pass, open_attempts_pass, resumed_tids_pass,
      process_calls_pass, process_calls_stop, open_attempts_stop.
    cbn [suspended_tids open_attempts resumed_tids process_calls
         flat_map filter app].
    rewrite !app_nil_r. repeat split.
    + rewrite Hes, <- owned_tids_snoc by exact Ho.
      replace (pre ++ e :: post) with ((pre ++ [e]) ++ post)
        by (rewrite <- app_assoc; reflexivity).
      rewrite (owned_tids_app pid (pre ++ [e]) post).
      apply incl_appl, incl_refl.
    + apply incl_app; [apply incl_appl, incl_refl|apply incl_appr].
      destruct s; cbn; auto using incl_refl, incl_nil_l.
    + apply incl_app; [apply incl_appl, incl_refl|apply incl_appr].
      destruct s; cbn; auto using incl_refl, incl_nil_l.
  - rewrite new_calls_print_log by reflexivity.
    rewrite !suspended_tids_app, !open_attempts_app, !resumed_tids_app,
      !process_calls_app.
    rewrite suspended_tids_pass, open_attempts_pass, resumed_tids_pass,
      process_calls_pass.
    cbn [suspended_tids open_attempts resumed_tids process_calls
         flat_map filter app].
    rewrite !app_nil_r, Hes. repeat split; apply incl_refl.
Qed.

(** The thread table after [status]: unchanged, or with one suspend left on
    a thread of the target. *)
Lemma status_thread_table pid w :
  threads (snd (status pid w)) = threads w
  \/ exists tid, In tid (owned_tids pid (snapshot_of w))
                 /\ threads (snd (status pid w))
                    = update_thread tid suspend_one (threads w).
Proof.
  rewrite status_summary_correct. unfold status_summary.
  destruct (snapshot_ok w); [|left; reflexivity].
  cbv zeta.
  destruct (first_stop (threads w) pid (snapshot_of w))
    as [pre [[[e s] post]|]] eqn:Hfs;
    destruct (first_stop_split _ _ _ _ _ Hfs) as [Hpre Hes];
    cbn [fst snd]; [|left; reflexivity].
  destruct Hes as [Hes Hstop].
  destruct (stop_at_owned _ _ _ _ Hstop) as [Ho Hc].
  destruct s; try (left; reflexivity).
  right. exists (th32ThreadID e). split; [|reflexivity].
  rewrite Hes, owned_tids_app. apply in_or_app. right.
  unfold owned_tids. cbn [filter]. rewrite Ho. left. reflexivity.
Qed.

(** C10.  [status] makes no process call at all (no GetProcAddress, no
    OpenProcess, no whole-process primitive), and a thread owned by another
    process is never handed to OpenThread, SuspendThread or ResumeThread and
    is found unchanged in the thread table afterwards. *)
Theorem status_leaves_other_processes_alone pid w :
  unique_tids w = true ->
  let w' := snd (status pid w) in
  let tr := new_calls w w' in
  process_calls tr = []
  /\ forall t, In t (threads w) -> th_owner t <> pid ->
       ~ In (th_id t) (open_attempts tr)
       /\ ~ In (th_id t) (suspended_tids tr)
       /\ ~ In (th_id t) (resumed_tids tr)
       /\ find_thread (th_id t) (threads w') = Some t.
Proof.
  intros U. cbv zeta.
  destruct (status_thread_calls pid w) as (IO & IS & IR & PC).
  split; [exact PC|]. intros t Hin Hne.
  pose proof (distinct_NoDup _ U) as N.
  assert (X : ~ In (th_id t) (owned_tids pid (snapshot_of w))).
  { intros H. apply owned_tid_thread in H. destruct H as (t' & Ht' & E & O).
    apply Hne. rewrite <- O. f_equal.
    apply (unique_thread (threads w)); auto. }
  repeat split.
  - intros H. apply X, IO, H.
  - intros H. apply X, IO, IS, H.
  - intros H. apply X, IO, IR, H.
  - destruct (status_thread_table pid w) as [->|(tid & Ht & ->)].
    + apply find_unique; assumption.
    + rewrite find_update_other.
      * apply find_unique; assumption.
      * apply suspend_one_id.
      * intros ->. contradiction.
Qed.

Lemma status_leaves_other_processes_alone_sample :
  unique_tids sample_world = true
  /\ process_calls (new_calls sample_world (snd (status 7 sample_world))) = []
  /\ ~ In 40 (open_attempts
                (new_calls sample_world (snd (status 7 sample_world))))
  /\ find_thread 40 (threads (snd (status 7 sample_world)))
     = Some (healthy 40 4 0).
Proof.
  split; [reflexivity|].
  destruct (status_leaves_other_processes_alone 7 sample_world eq_refl)
    as [H1 H2].
  split; [exact H1|].
  destruct (H2 (healthy 40 4 0) (or_introl eq_refl)) as (A & _ & _ & B).
  - discriminate.
  - split; [exact A|exact B].
Defined.

End StatusClaims.

(* ================================================================== *)
(** ** Handles, missing processes, and suspend/resume followed by status *)
(* ================================================================== *)

Module ProcessClaims.
Import Win32 Susres Observe Win32Facts LoopFacts TraceFacts ApplyFacts.
Import StatusClaims.

Lemma handles_apply pid suspend w :
  handles (snd (apply pid suspend w)) = handles w.
Proof.
  rewrite apply_summary_correct. unfold apply_summary.
  destruct (exported _ w); [destruct (can_open pid w)|]; reflexivity.
Qed.

Lemma handles_status pid w : handles (snd (status pid w)) = handles w.
Proof.
  rewrite status_summary_correct. unfold status_summary.
  destruct (snapshot_ok w); [|reflexivity]. cbv zeta.
  destruct (first_stop (threads w) pid (snapshot_of w))
    as [pre [[[e s] post]|]]; [|reflexivity].
  cbn [snd print log handles]. apply handles_stop_state.
Qed.

(** C9.  The handles open after [apply], after [status] and after [main]
    are the handles that were open before: the process handle, the snapshot
    handle and every thread handle are closed again on every path, the
    early returns and the [break] included. *)
Theorem handles_released_on_every_path pid suspend argv w :
  handles (snd (apply pid suspend w)) = handles w
  /\ handles (snd (status pid w)) = handles w
  /\ handles (snd (main argv w)) = handles w.
Proof.
  split; [apply handles_apply|split; [apply handles_status|]].
  unfold main, usage.
  destruct (negb _); [reflexivity|].
  destruct (parse_command _) as [[| |]|]; cbn [run_command];
    auto using handles_apply, handles_status.
Qed.

Lemma process_exists_can_open pid w :
  process_exists pid w = false -> can_open pid w = false.
Proof.
  unfold process_exists, can_open. destruct (find_process pid w);
    [discriminate|reflexivity].
Qed.

(** A process that does not exist owns no thread. *)
Lemma no_process_no_threads pid w :
  owners_exist w = true -> process_exists pid w = false ->
  owns_thread pid w = false.
Proof.
  unfold owners_exist, owns_thread, snapshot_of. intros O P.
  destruct (existsb _ _) eqn:E; [|reflexivity].
  apply existsb_exists in E. destruct E as (e & He & Ho).
  apply in_map_iff in He. destruct He as (t & <- & Ht).
  rewrite forallb_forall in O. specialize (O t Ht).
  unfold owned in Ho. cbn in Ho. apply Z.eqb_eq in Ho.
  rewrite Ho in O. congruence.
Qed.

(** The [INVALID_HANDLE_VALUE] test of [apply] never fires: no run of
    [apply] prints the "Failed to OpenProcess" line. *)
Lemma apply_never_reports_open_failure pid suspend err w :
  ~ In (line_open_process_failed pid err)
       (new_output w (snd (apply pid suspend w))).
Proof.
  rewrite apply_summary_correct. unfold apply_summary.
  destruct (exported _ w); [destruct (can_open pid w)|]; cbn [snd].
  - rewrite (new_output_app w _ []) by (cbn; rewrite app_nil_r; reflexivity).
    intros [].
  - rewrite new_output_print_log by reflexivity.
    intros [H|[]]. destruct suspend; discriminate H.
  - rewrite new_output_print_log by reflexivity.
    intros [H|[]]. discriminate H.
Qed.

(** C3, as the code has it.  On a pid that names no existing process every
    verb exits with 1 and prints one line.  For suspend and resume the line
    carries decoded OS error text; for status it is the "No threads found"
    line, which carries none, unless the snapshot itself failed. *)
Theorem nonexistent_pid_exits_1 cmd pid w :
  process_exists pid w = false ->
  owners_exist w = true ->
  let r := run_command cmd pid w in
  fst r = 1
  /\ exists l, new_output w (snd r) = [l]
     /\ match cmd with
        | Status =>
            l = if snapshot_ok w then line_no_threads pid
                else line_snapshot_failed ERROR_NOT_ENOUGH_MEMORY
        | _ => carries_os_error l = true
        end.
Proof.
  intros P O. cbv zeta.
  assert (A : forall b,
    fst (apply pid b w) = 1
    /\ exists l, new_output w (snd (apply pid b w)) = [l]
                 /\ carries_os_error l = true).
  { intros b. rewrite apply_summary_correct. unfold apply_summary.
    rewrite (process_exists_can_open _ _ P).
    destruct (exported _ w); cbn [fst snd];
      rewrite new_output_print_log by reflexivity;
      (split; [reflexivity|]); eexists; split; reflexivity. }
  destruct cmd; cbn [run_command]; try apply A.
  pose proof (no_process_no_threads _ _ O P) as N.
  destruct (snapshot_ok w) eqn:S.
  - destruct (status_without_threads pid w S N) as (H1 & H2).
    split; [exact H1|]. eexists; split; [exact H2|reflexivity].
  - rewrite status_summary_correct. unfold status_summary. rewrite S.
    cbn [fst snd]. rewrite new_output_print_log by reflexivity.
    split; [reflexivity|]. eexists; split; reflexivity.
Qed.

Lemma nonexistent_pid_exits_1_sample :
  process_exists 8 sample_world = false
  /\ owners_exist sample_world = true
  /\ fst (run_command Resume 8 sample_world) = 1.
Proof.
  split; [reflexivity|split; [reflexivity|]].
  exact (proj1 (nonexistent_pid_exits_1 Resume 8 sample_world
                  eq_refl eq_refl)).
Defined.

(** C3, as stated, fails twice on pid 8 of the sample world: [status]
    prints "No threads found for pid 8", which carries no OS error text, and
    [apply] does not notice that OpenProcess returned [NULL], so it calls
    NtSuspendProcess on the [NULL] handle. *)
Lemma nonexistent_pid_claim_fails :
  process_exists 8 sample_world = false
  /\ ~ nonexistent_pid_claim Status 8 sample_world
  /\ ~ nonexistent_pid_claim Suspend 8 sample_world
  /\ new_output sample_world (snd (status 8 sample_world))
     = [line_no_threads 8]
  /\ new_calls sample_world (snd (apply 8 true sample_world))
     = [EvGetProcAddress "NtSuspendProcess" true; EvOpenProcess 8 NULL;
        EvNtCall NtSuspendProcess NULL STATUS_INVALID_HANDLE;
        EvCloseHandle NULL].
Proof.
  split; [reflexivity|]. split; [|split; [|split; reflexivity]].
  - intros (_ & (l & Hin & Hc) & _). vm_compute in Hin.
    destruct Hin as [<-|[]]. discriminate Hc.
  - intros (_ & _ & H). specialize (H ltac:(discriminate)).
    vm_compute in H. discriminate H.
Qed.

(** *** [status] on a target whose probes all succeed *)

Lemma classify_healthy ts t :
  find_thread (th_id t) ts = Some t ->
  th_open_ok t = true -> th_suspend_ok t = true -> th_resume_ok t = true ->
  (th_count t < MAXIMUM_SUSPEND_COUNT)%nat ->
  classify ts (th_id t)
  = if (th_count t =? 0)%nat then Some StopRunning else None.
Proof.
  intros F O S R C. unfold classify. rewrite F, O, S, R.
  apply Nat.ltb_lt in C. rewrite C. reflexivity.
Qed.

Lemma status_all_suspended pid w :
  snapshot_ok w = true ->
  owns_thread pid w = true ->
  Forall (fun e => stop_at (threads w) pid e = None) (snapshot_of w) ->
  fst (status pid w) = 0
  /\ reports line_T w (snd (status pid w))
  /\ probed (new_calls w (snd (status pid w)))
     = owned_tids pid (snapshot_of w)
  /\ threads (snd (status pid w)) = threads w.
Proof.
  intros S O F. rewrite status_summary_correct. unfold status_summary.
  rewrite S. cbv zeta. rewrite (first_stop_none _ _ _ F).
  unfold owns_thread in O. rewrite O. cbn [fst snd]. unfold reports.
  rewrite new_output_print_log, new_calls_print_log by reflexivity.
  rewrite !probed_app, probed_pass by exact F. cbn [probed flat_map app].
  rewrite app_nil_r. auto.
Qed.


(** *** The whole-process primitives *)

Lemma apply_success pid suspend w :
  fst (apply pid suspend w) = 0 ->
  exists tr,
    snd (apply pid suspend w)
    = log tr (set_threads
                (adjust_process (sus_res_of suspend) pid (threads w)) w).
Proof.
  rewrite apply_summary_correct. unfold apply_summary.
  destruct (exported _ w); [destruct (can_open pid w)|];
    cbn [fst snd]; try discriminate.
  intros _. eexists. reflexivity.
Qed.

Lemma apply_controllable pid suspend w :
  can_open pid w = true -> exported (sus_res_name suspend) w = true ->
  fst (apply pid suspend w) = 0.
Proof.
  intros C E. rewrite apply_summary_correct. unfold apply_summary.
  rewrite E, C. reflexivity.
Qed.

Lemma adjust_ids f pid ts :
  map th_id (adjust_process f pid ts) = map th_id ts.
Proof.
  unfold adjust_process. rewrite map_map. apply map_ext. intros t.
  destruct (th_owner t =? pid); [|reflexivity].
  destruct f; cbn [adjust]; [apply suspend_one_id|reflexivity].
Qed.

Lemma adjust_entries f pid ts :
  map entry_of (adjust_process f pid ts) = map entry_of ts.
Proof.
  unfold adjust_process. rewrite map_map. apply map_ext. intros t.
  destruct (th_owner t =? pid); [|reflexivity].
  destruct f; cbn [adjust]; [|reflexivity].
  unfold suspend_one. destruct (_ <? _)%nat; reflexivity.
Qed.




Lemma probe_ready_snapshot pid w :
  probe_ready pid w = true -> snapshot_ok w = true.
Proof. unfold probe_ready. intros H. apply andb_prop in H. tauto. Qed.



Lemma counts_below_thread n pid w t :
  counts_below n pid w = true -> In t (threads w) -> th_owner t = pid ->
  (th_count t < n)%nat.
Proof.
  unfold counts_below. intros B Hin Ho.
  rewrite forallb_forall in B. specialize (B t Hin).
  rewrite Ho, Z.eqb_refl in B. cbn [negb orb] in B.
  apply Nat.ltb_lt in B. exact B.
Qed.

Lemma probe_flags pid w t :
  probe_ready pid w = true -> In t (threads w) -> th_owner t = pid ->
  th_open_ok t = true /\ th_suspend_ok t = true /\ th_resume_ok t = true.
Proof.
  unfold probe_ready. intros P Hin Ho.
  apply andb_prop in P. destruct P as [_ P].
  rewrite forallb_forall in P. specialize (P t Hin).
  rewrite Ho, Z.eqb_refl in P. cbn [negb orb] in P.
  apply andb_prop in P. destruct P as [P P3].
  apply andb_prop in P. destruct P as [P1 P2]. auto.
Qed.

(** After NtSuspendProcess a thread of the target that had room for two
    more suspends has one more than before and room for the probe's. *)
Lemma raised_target_thread pid w t' :
  probe_ready pid w = true ->
  counts_below (Nat.pred MAXIMUM_SUSPEND_COUNT) pid w = true ->
  In t' (adjust_process NtSuspendProcess pid (threads w)) ->
  th_owner t' = pid ->
  exists t, In t (threads w) /\ th_id t = th_id t' /\ th_owner t = pid
            /\ th_count t' = S (th_count t)
            /\ (th_count t' < MAXIMUM_SUSPEND_COUNT)%nat
            /\ th_open_ok t' = true /\ th_suspend_ok t' = true
            /\ th_resume_ok t' = true.
Proof.
  intros P B Hin Ho. unfold adjust_process in Hin.
  apply in_map_iff in Hin. destruct Hin as (t & E & Ht).
  destruct (th_owner t =? pid) eqn:O.
  - apply Z.eqb_eq in O.
    destruct (probe_flags pid w t P Ht O) as (X & Y & Z).
    pose proof (counts_below_thread _ pid w t B Ht O) as C.
    assert (C' : (S (th_count t) < MAXIMUM_SUSPEND_COUNT)%nat)
      by (unfold MAXIMUM_SUSPEND_COUNT in *; cbn [Nat.pred] in C; lia).
    assert (L : (th_count t <? MAXIMUM_SUSPEND_COUNT)%nat = true)
      by (apply Nat.ltb_lt; lia).
    exists t. subst t'. cbn [adjust]. unfold suspend_one. rewrite L.
    unfold with_count.
    cbn [th_id th_owner th_count th_open_ok th_suspend_ok th_resume_ok].
    repeat split; assumption.
  - apply Z.eqb_neq in O. subst t'. contradiction.
Qed.

(** The world after a successful NtSuspendProcess on a target whose
    threads had room for two more suspends: every count is one higher, and
    every probe will find its thread suspended. *)
Lemma raised_world pid w tr :
  unique_tids w = true ->
  probe_ready pid w = true ->
  counts_below (Nat.pred MAXIMUM_SUSPEND_COUNT) pid w = true ->
  let w1 := log tr (set_threads
                      (adjust_process NtSuspendProcess pid (threads w)) w) in
  snapshot_of w1 = snapshot_of w
  /\ Forall (fun e => stop_at (threads w1) pid e = None) (snapshot_of w1)
  /\ Forall (fun tid => suspend_count w1 tid = S (suspend_count w tid))
            (owned_tids pid (snapshot_of w1)).
Proof.
  intros U P B.
  set (ts1 := adjust_process NtSuspendProcess pid (threads w)).
  intros w1.
  assert (T1 : threads w1 = ts1) by reflexivity.
  assert (S1 : snapshot_of w1 = snapshot_of w).
  { unfold snapshot_of. rewrite T1. apply adjust_entries. }
  pose proof (distinct_NoDup _ U) as N.
  assert (N1 : NoDup (map th_id ts1)).
  { unfold ts1. rewrite adjust_ids. exact N. }
  assert (K : forall t', In t' ts1 -> th_owner t' = pid ->
                find_thread (th_id t') ts1 = Some t'
                /\ th_count t' = S (count_of (threads w) (th_id t'))
                /\ classify ts1 (th_id t') = None).
  { intros t' Ht' O.
    destruct (raised_target_thread pid w t' P B Ht' O)
      as (t & Ht & It & Ot & C & M & X & Y & Z).
    pose proof (find_unique ts1 t' N1 Ht') as F.
    split; [exact F|split].
    - unfold count_of. rewrite <- It, (find_unique _ _ N Ht). exact C.
    - rewrite (classify_healthy ts1 t' F X Y Z M), C. reflexivity. }
  split; [exact S1|split].
  - apply Forall_forall. intros e He. unfold stop_at.
    destruct (owned pid e) eqn:O; [|reflexivity].
    unfold snapshot_of in He. rewrite T1 in *.
    apply in_map_iff in He. destruct He as (t' & <- & Ht').
    unfold owned in O. cbn in O. apply Z.eqb_eq in O.
    apply (K t' Ht' O).
  - apply Forall_forall. intros tid Hin.
    apply owned_tid_thread in Hin. destruct Hin as (t' & Ht' & <- & O).
    rewrite T1 in Ht'. destruct (K t' Ht' O) as (Fi & C & _).
    unfold suspend_count. unfold count_of at 1. rewrite T1, Fi. exact C.
Qed.

(** C8, as the code has it.  On a target with a thread in the snapshot,
    whose threads can all be opened, suspended and resumed and all have a
    suspend count below 126 (so that after the suspend the probe's own
    SuspendThread still stays within the maximum of 127), a suspend that
    succeeds raises the count of every thread of the target by one, to at
    least 1, and the [status] that follows exits with 0, probes every thread
    of the target and prints T. *)
Theorem suspend_then_status_reports_T pid w :
  unique_tids w = true ->
  probe_ready pid w = true ->
  owns_thread pid w = true ->
  counts_below (Nat.pred MAXIMUM_SUSPEND_COUNT) pid w = true ->
  fst (apply pid true w) = 0 ->
  let w1 := snd (apply pid true w) in
  let r := status pid w1 in
  fst r = 0
  /\ reports line_T w1 (snd r)
  /\ Forall (fun tid => suspend_count w1 tid = S (suspend_count w tid))
            (owned_tids pid (snapshot_of w1))
  /\ probed (new_calls w1 (snd r)) = owned_tids pid (snapshot_of w1).
Proof.
  intros U P O B A. cbv zeta.
  destruct (apply_success _ _ _ A) as [tr E]. rewrite E.
  cbn [sus_res_of].
  destruct (raised_world pid w tr U P B) as (S1 & F & G).
  set (w1 := log tr (set_threads _ w)) in *.
  assert (O1 : owns_thread pid w1 = true).
  { unfold owns_thread. rewrite S1. exact O. }
  destruct (status_all_suspended pid w1 (probe_ready_snapshot _ _ P) O1 F)
    as (H1 & H2 & H3 & _).
  repeat split; assumption.
Qed.

Lemma suspend_then_status_reports_T_sample :
  unique_tids Coverage.mixed_world = true
  /\ probe_ready 7 Coverage.mixed_world = true
  /\ owns_thread 7 Coverage.mixed_world = true
  /\ counts_below (Nat.pred MAXIMUM_SUSPEND_COUNT) 7 Coverage.mixed_world = true
  /\ fst (apply 7 true Coverage.mixed_world) = 0
  /\ reports line_T (snd (apply 7 true Coverage.mixed_world))
             (snd (status 7 (snd (apply 7 true Coverage.mixed_world)))).
Proof.
  repeat (split; [vm_compute; reflexivity|]).
  exact (proj1 (proj2 (suspend_then_status_reports_T 7 Coverage.mixed_world
                         eq_refl eq_refl eq_refl eq_refl eq_refl))).
Defined.

(** C8, as stated, fails at the maximum suspend count.  In the brimming
    world process 7 runs ([status] prints R) and all its threads can be
    probed.  The suspend succeeds and takes thread 71 from 126 to 127; the
    probe's SuspendThread on it is then refused, and [status] returns 1
    with the SuspendThread diagnostic instead of T. *)
Lemma suspend_status_claim_fails_at_maximum :
  ~ suspend_status_claim 7 brimming_world
  /\ new_output brimming_world (snd (status 7 brimming_world)) = [line_R]
  /\ fst (apply 7 true brimming_world) = 0
  /\ suspend_count (snd (apply 7 true brimming_world)) 71
     = MAXIMUM_SUSPEND_COUNT
  /\ fst (status 7 (snd (apply 7 true brimming_world))) = 1
  /\ new_output (snd (apply 7 true brimming_world))
                (snd (status 7 (snd (apply 7 true brimming_world))))
     = [line_suspend_failed 71 ERROR_SIGNAL_REFUSED].
Proof.
  split; [|repeat (split; [vm_compute; reflexivity|]);
           vm_compute; reflexivity].
  intros H.
  assert (A : unique_tids brimming_world = true) by (vm_compute; reflexivity).
  assert (B : probe_ready 7 brimming_world = true)
    by (vm_compute; reflexivity).
  assert (C : owns_thread 7 brimming_world = true)
    by (vm_compute; reflexivity).
  assert (D : fst (apply 7 true brimming_world) = 0)
    by (vm_compute; reflexivity).
  specialize (H A B C D). unfold reports in H. vm_compute in H.
  discriminate H.
Qed.



End ProcessClaims.

(* ================================================================== *)
(** ** The command line *)
(* ================================================================== *)

Module MainClaims.
Import Win32 Susres Observe Win32Facts ApplyFacts StatusClaims.

Example atoi64_plain : _atoi64 "1234" = 1234.
Proof. reflexivity. Qed.

Example atoi64_stops_at_first_other_character : _atoi64 "  -12x3" = -12.
Proof. reflexivity. Qed.

Example atoi64_saturates : _atoi64 "9223372036854775808" = I64_MAX.
Proof. reflexivity. Qed.

Lemma parse_command_unknown verb :
  ~ In verb ["suspend"; "resume"; "status"] -> parse_command verb = None.
Proof.
  intros H. unfold parse_command.
  destruct (String.eqb_spec verb "suspend") as [->|_];
    [exfalso; apply H; cbn; auto|].
  destruct (String.eqb_spec verb "resume") as [->|_];
    [exfalso; apply H; cbn; auto|].
  destruct (String.eqb_spec verb "status") as [->|_];
    [exfalso; apply H; cbn; auto|].
  reflexivity.
Qed.

(** C6.  With an argument count other than two after the program name, or
    a first argument that is none of the three verbs, [main] prints the
    usage text and exits with 1; it makes no operating-system call, so no
    process, thread or snapshot handle is opened and no thread is touched. *)
Theorem main_prints_usage_on_malformed_invocation argv w :
  List.length argv <> 3%nat
  \/ ~ In (nth 1 argv "") ["suspend"; "resume"; "status"] ->
  let r := main argv w in
  fst r = 1
  /\ new_output w (snd r) = [usage_text]
  /\ new_calls w (snd r) = []
  /\ handles (snd r) = handles w
  /\ threads (snd r) = threads w.
Proof.
  intros H. cbv zeta.
  assert (E : main argv w = usage w).
  { unfold main. destruct (Z.of_nat (List.length argv) =? 3) eqn:L;
      cbn [negb]; [|reflexivity].
    apply Z.eqb_eq in L. destruct H as [H|H]; [lia|].
    rewrite (parse_command_unknown _ H). reflexivity. }
  rewrite E. unfold usage. cbn [fst snd].
  repeat split.
  - apply new_output_app. reflexivity.
  - apply new_calls_app. cbn. rewrite app_nil_r. reflexivity.
Qed.

Lemma main_prints_usage_sample :
  ~ In (nth 1 ["susres"; "pause"; "7"] "") ["suspend"; "resume"; "status"]
  /\ fst (main ["susres"; "pause"; "7"] sample_world) = 1
  /\ new_calls sample_world (snd (main ["susres"; "pause"; "7"] sample_world))
     = [].
Proof.
  assert (N : ~ In (nth 1 ["susres"; "pause"; "7"] "")
                   ["suspend"; "resume"; "status"]).
  { cbn. intros [H|[H|[H|[]]]]; discriminate H. }
  split; [exact N|].
  destruct (main_prints_usage_on_malformed_invocation
              ["susres"; "pause"; "7"] sample_world (or_intror N))
    as (H1 & _ & H3 & _).
  split; [exact H1|exact H3].
Defined.

(** C4, as the code has it.  The pid handed to the selected operation is
    the 64-bit parse of the argument reduced modulo 2^32 (the conversion to
    DWORD); it is the parse itself exactly when the parse lies in
    [0, 2^32).  For suspend and resume this is the pid OpenProcess is
    called with. *)
Theorem main_passes_pid_modulo_2_32 prog verb arg cmd w :
  parse_command verb = Some cmd ->
  let pid := _atoi64 arg mod 2 ^ 32 in
  main [prog; verb; arg] w = run_command cmd pid w
  /\ (0 <= _atoi64 arg < 2 ^ 32 -> pid = _atoi64 arg)
  /\ (cmd <> Status -> exported (verb_name cmd) w = true ->
      exists h, In (EvOpenProcess pid h)
                   (new_calls w (snd (main [prog; verb; arg] w)))).
Proof.
  intros P. cbv zeta.
  assert (E : main [prog; verb; arg] w
              = run_command cmd (_atoi64 arg mod 2 ^ 32) w).
  { unfold main. cbn [List.length nth Z.of_nat]. cbn [negb Z.eqb Pos.eqb
      Pos.of_succ_nat Pos.succ]. rewrite P. reflexivity. }
  split; [exact E|split].
  - intros R. apply Z.mod_small. exact R.
  - intros Hc X. rewrite E.
    assert (A : forall b, exported (sus_res_name b) w = true ->
                exists h, In (EvOpenProcess (_atoi64 arg mod 2 ^ 32) h)
                  (new_calls w (snd (apply (_atoi64 arg mod 2 ^ 32) b w)))).
    { intros b Xb. rewrite apply_summary_correct. unfold apply_summary.
      rewrite Xb. destruct (can_open _ w); cbn [snd].
      - rewrite new_calls_log by reflexivity. eexists. right. left.
        reflexivity.
      - rewrite new_calls_print_log by reflexivity. eexists. right. left.
        reflexivity. }
    destruct cmd; cbn [run_command]; [apply A|apply A|congruence]; exact X.
Qed.

Lemma main_passes_pid_sample :
  parse_command "resume" = Some Resume
  /\ main ["susres"; "resume"; "4294967303"] sample_world
     = run_command Resume 7 sample_world.
Proof.
  split; [reflexivity|].
  exact (proj1 (main_passes_pid_modulo_2_32
                  "susres" "resume" "4294967303" Resume sample_world
                  eq_refl)).
Defined.

(** C4, as stated, fails: "4294967303" parses to 2^32 + 7 as a 64-bit
    integer, and [main] suspends process 7. *)
Lemma pid_is_truncated_to_32_bits :
  _atoi64 "4294967303" = 2 ^ 32 + 7
  /\ ~ pid_unaltered_claim Suspend "4294967303" sample_world
  /\ new_calls sample_world
       (snd (main ["susres"; "suspend"; "4294967303"] sample_world))
     = [EvGetProcAddress "NtSuspendProcess" true; EvOpenProcess 7 2;
        EvNtCall NtSuspendProcess 2 0; EvCloseHandle 2].
Proof.
  split; [reflexivity|split; [|reflexivity]].
  unfold pid_unaltered_claim. vm_compute. intros H. discriminate H.
Qed.

End MainClaims.

(* ================================================================== *)
(** ** More about [apply], [status] and [main] *)
(* ================================================================== *)

Module CoverageFacts.
Import Win32 Susres Observe Coverage.
Import Win32Facts LoopFacts ApplyFacts TraceFacts StatusClaims ProcessClaims.

(** *** [apply] *)

(** [apply] returns 1 whenever ntdll does not export the primitive or
    the process cannot be opened, and then no suspend count has changed;
    when the primitive is missing it returns before OpenProcess is called. *)
Theorem apply_fails_without_primitive_or_process pid suspend w :
  exported (sus_res_name suspend) w && can_open pid w = false ->
  let r := apply pid suspend w in
  fst r = 1
  /\ threads (snd r) = threads w
  /\ (exported (sus_res_name suspend) w = false ->
      new_calls w (snd r) = [EvGetProcAddress (sus_res_name suspend) false]).
Proof.
  intros H. cbv zeta. rewrite apply_summary_correct. unfold apply_summary.
  destruct (exported _ w); [destruct (can_open pid w)|]; cbn [fst snd].
  - discriminate H.
  - repeat split. intros X. discriminate X.
  - repeat split. intros _.
    apply new_calls_print_log. reflexivity.
Qed.

Lemma apply_fails_without_process_sample :
  exported (sus_res_name true) sample_world && can_open 8 sample_world = false
  /\ fst (apply 8 true sample_world) = 1
  /\ threads (snd (apply 8 true sample_world)) = threads sample_world.
Proof.
  split; [reflexivity|].
  destruct (apply_fails_without_primitive_or_process 8 true sample_world
              eq_refl) as (H1 & H2 & _).
  split; [exact H1|exact H2].
Defined.

Lemma adjust_process_frame f pid ts :
  Forall2 (fun t t' => th_id t' = th_id t /\ th_owner t' = th_owner t
                       /\ (th_owner t <> pid -> t' = t))
          ts (adjust_process f pid ts).
Proof.
  induction ts as [|t ts IH]; cbn [adjust_process map]; constructor;
    [|exact IH].
  destruct (th_owner t =? pid) eqn:O.
  - apply Z.eqb_eq in O. repeat split.
    + destruct f; cbn [adjust]; [apply suspend_one_id|reflexivity].
    + destruct f; cbn [adjust]; [|reflexivity].
      unfold suspend_one. destruct (_ <? _)%nat; reflexivity.
    + intros H. contradiction.
  - auto.
Qed.

Lemma Forall2_same {A} (R : A -> A -> Prop) l :
  (forall x, R x x) -> Forall2 R l l.
Proof. intros H. induction l; constructor; auto. Qed.

(** [apply] keeps the thread table's shape: the same threads in the
    same order, each with its identifier and owner, and every thread of a
    process other than the target exactly as it was. *)
Theorem apply_changes_only_the_target pid suspend w :
  Forall2 (fun t t' => th_id t' = th_id t /\ th_owner t' = th_owner t
                       /\ (th_owner t <> pid -> t' = t))
          (threads w) (threads (snd (apply pid suspend w))).
Proof.
  rewrite apply_summary_correct. unfold apply_summary.
  destruct (exported _ w); [destruct (can_open pid w)|]; cbn [snd].
  - apply adjust_process_frame.
  - apply Forall2_same. auto.
  - apply Forall2_same. auto.
Qed.

(** [apply] is silent when it succeeds; when it fails it prints one
    line, which carries decoded OS error text, and leaves every suspend
    count as it was. *)
Theorem apply_prints_only_on_failure pid suspend w :
  let r := apply pid suspend w in
  (fst r = 0 /\ new_output w (snd r) = [])
  \/ (fst r = 1
      /\ (exists l, new_output w (snd r) = [l] /\ carries_os_error l = true)
      /\ threads (snd r) = threads w).
Proof.
  cbv zeta. rewrite apply_summary_correct. unfold apply_summary.
  destruct (exported _ w); [destruct (can_open pid w)|]; cbn [fst snd].
  - left. split; [reflexivity|]. apply new_output_app. cbn.
    rewrite app_nil_r. reflexivity.
  - right. rewrite new_output_print_log by reflexivity.
    repeat split. eexists. split; reflexivity.
  - right. rewrite new_output_print_log by reflexivity.
    repeat split. eexists. split; reflexivity.
Qed.

Lemma apply_thread_calls pid suspend w :
  thread_calls (new_calls w (snd (apply pid suspend w))) = [].
Proof.
  rewrite apply_summary_correct. unfold apply_summary.
  destruct (exported _ w); [destruct (can_open pid w)|]; cbn [snd].
  - rewrite new_calls_log by reflexivity. reflexivity.
  - rewrite new_calls_print_log by reflexivity. reflexivity.
  - rewrite new_calls_print_log by reflexivity. reflexivity.
Qed.

(** [apply] never enumerates threads: it takes no snapshot and makes no
    call on a single thread, whatever its outcome; and the only process it
    asks OpenProcess for is the target. *)
Theorem apply_makes_no_thread_call pid suspend w :
  let tr := new_calls w (snd (apply pid suspend w)) in
  thread_calls tr = []
  /\ forall p h, In (EvOpenProcess p h) tr -> p = pid.
Proof.
  cbv zeta. split; [apply apply_thread_calls|].
  rewrite apply_summary_correct. unfold apply_summary.
  destruct (exported _ w); [destruct (can_open pid w)|]; cbn [snd].
  - rewrite new_calls_log by reflexivity. intros p h H. cbn in H.
    destruct H as [H|[H|[H|[H|[]]]]]; try discriminate H.
    injection H as <- _. reflexivity.
  - rewrite new_calls_print_log by reflexivity. intros p h H. cbn in H.
    destruct H as [H|[H|[H|[H|[]]]]]; try discriminate H.
    injection H as <- _. reflexivity.
  - rewrite new_calls_print_log by reflexivity. intros p h H. cbn in H.
    destruct H as [H|[]]. discriminate H.
Qed.

(** *** [status] *)

(** Every path through [status] prints exactly one line and returns 0 or
    1; it returns 0 exactly when that line is the verdict T or R. *)
Theorem status_prints_one_line pid w :
  let r := status pid w in
  exists l, new_output w (snd r) = [l]
            /\ (fst r = 0 <-> l = line_T \/ l = line_R)
            /\ (fst r = 0 \/ fst r = 1).
Proof.
  cbv zeta. rewrite status_summary_correct. unfold status_summary.
  destruct (snapshot_ok w).
  - cbv zeta.
    destruct (first_stop (threads w) pid (snapshot_of w))
      as [pre [[[e s] post]|]]; cbn [fst snd].
    + rewrite new_output_print_log by apply stdout_stop_state.
      eexists. split; [reflexivity|].
      destruct s; cbn [stop_code stop_line]; (split; [split|auto]);
        try discriminate; auto;
        intros [H|H]; discriminate H.
    + rewrite new_output_print_log by reflexivity.
      eexists. split; [reflexivity|].
      destruct (existsb (owned pid) (snapshot_of w)); (split; [split|auto]);
        try discriminate; auto;
        intros [H|H]; discriminate H.
  - cbn [fst snd]. rewrite new_output_print_log by reflexivity.
    eexists. split; [reflexivity|]. split; [split|auto];
      try discriminate. intros [H|H]; discriminate H.
Qed.

Lemma snapshot_ok_status pid w :
  snapshot_ok (snd (status pid w)) = snapshot_ok w.
Proof.
  rewrite status_summary_correct. unfold status_summary.
  destruct (snapshot_ok w) eqn:S; [|exact S]. cbv zeta.
  destruct (first_stop (threads w) pid (snapshot_of w))
    as [pre [[[e s] post]|]]; cbn [snd print log snapshot_ok];
    [destruct s|]; exact S.
Qed.

Lemma threads_status_unless_resume_fails pid w :
  resume_failed (new_calls w (snd (status pid w))) = false ->
  threads (snd (status pid w)) = threads w.
Proof.
  rewrite status_summary_correct. unfold status_summary.
  destruct (snapshot_ok w); [|reflexivity]. cbv zeta.
  destruct (first_stop (threads w) pid (snapshot_of w))
    as [pre [[[e s] post]|]]; cbn [fst snd]; [|reflexivity].
  rewrite new_calls_print_log by apply calls_stop_state.
  rewrite !resume_failed_app. intros R.
  apply orb_false_elim in R. destruct R as [_ R].
  apply orb_false_elim in R. destruct R as [R _].
  apply resume_failed_stop in R.
  destruct s; try reflexivity. congruence.
Qed.

(** The run of [status] is read off the snapshot flag, the thread table
    and the handle table alone. *)
Lemma status_same_state_same_run pid w1 w2 :
  snapshot_ok w1 = snapshot_ok w2 ->
  threads w1 = threads w2 ->
  handles w1 = handles w2 ->
  fst (status pid w1) = fst (status pid w2)
  /\ new_output w1 (snd (status pid w1)) = new_output w2 (snd (status pid w2))
  /\ new_calls w1 (snd (status pid w1)) = new_calls w2 (snd (status pid w2)).
Proof.
  intros S T H. rewrite !status_summary_correct.
  unfold status_summary, snapshot_of. rewrite S, T, H.
  destruct (snapshot_ok w2).
  - cbv zeta.
    destruct (first_stop (threads w2) pid (map entry_of (threads w2)))
      as [pre [[[e s] post]|]]; cbn [fst snd].
    + rewrite !new_output_print_log by apply stdout_stop_state.
      rewrite !new_calls_print_log by apply calls_stop_state. auto.
    + rewrite !new_output_print_log by reflexivity.
      rewrite !new_calls_print_log by reflexivity. auto.
  - cbn [fst snd].
    rewrite !new_output_print_log by reflexivity.
    rewrite !new_calls_print_log by reflexivity. auto.
Qed.

(** [status] can be repeated: unless a ResumeThread call failed, a
    second [status] right after the first returns the same code, prints the
    same line and makes the same calls. *)
Theorem status_is_repeatable pid w :
  resume_failed (new_calls w (snd (status pid w))) = false ->
  let r1 := status pid w in
  let r2 := status pid (snd r1) in
  fst r2 = fst r1
  /\ new_output (snd r1) (snd r2) = new_output w (snd r1)
  /\ new_calls (snd r1) (snd r2) = new_calls w (snd r1).
Proof.
  intros R. cbv zeta. apply status_same_state_same_run.
  - apply snapshot_ok_status.
  - apply threads_status_unless_resume_fails. exact R.
  - apply handles_status.
Qed.

Lemma status_is_repeatable_sample :
  resume_failed (new_calls mixed_world (snd (status 7 mixed_world))) = false
  /\ new_output (snd (status 7 mixed_world))
                (snd (status 7 (snd (status 7 mixed_world))))
     = [line_R].
Proof.
  split; [reflexivity|].
  destruct (status_is_repeatable 7 mixed_world eq_refl) as (_ & H & _).
  rewrite H. reflexivity.
Defined.

(** A thread of the target as [status] finds it through its snapshot
    entry. *)
Lemma entry_thread pid w e :
  unique_tids w = true ->
  In e (snapshot_of w) -> owned pid e = true ->
  exists t, In t (threads w) /\ th_owner t = pid
            /\ th_id t = th32ThreadID e
            /\ find_thread (th32ThreadID e) (threads w) = Some t.
Proof.
  intros U He O. unfold snapshot_of in He. apply in_map_iff in He.
  destruct He as (t & <- & Ht). exists t.
  unfold owned in O. cbn in O. apply Z.eqb_eq in O.
  repeat split; try assumption.
  cbn [th32ThreadID entry_of].
  apply find_unique; [apply distinct_NoDup, U|exact Ht].
Qed.

(** The verdict is sound for the whole target: T is printed only when
    every thread of the target has a suspend count of at least 1, and R only
    when some thread of the target has count 0. *)
Theorem status_verdict_is_sound pid w :
  unique_tids w = true ->
  let w' := snd (status pid w) in
  (reports line_T w w' ->
   forall t, In t (threads w) -> th_owner t = pid -> (1 <= th_count t)%nat)
  /\ (reports line_R w w' ->
      exists t, In t (threads w) /\ th_owner t = pid /\ th_count t = 0%nat).
Proof.
  intros U. cbv zeta. unfold reports.
  pose proof (distinct_NoDup _ U) as N.
  rewrite status_summary_correct. unfold status_summary.
  destruct (snapshot_ok w).
  2:{ cbn [snd]. rewrite new_output_print_log by reflexivity.
      split; intros H; discriminate H. }
  cbv zeta.
  destruct (first_stop (threads w) pid (snapshot_of w))
    as [pre [[[e s] post]|]] eqn:Hfs;
    destruct (first_stop_split _ _ _ _ _ Hfs) as [Hpre Hes];
    cbn [fst snd].
  - destruct Hes as [Hes Hstop].
    destruct (stop_at_owned _ _ _ _ Hstop) as [Ho Hc].
    rewrite new_output_print_log by apply stdout_stop_state.
    split; intros H; [destruct s; discriminate H|].
    destruct s; try discriminate H.
    destruct (entry_thread pid w e U) as (t & Ht & Ot & It & Ft);
      [rewrite Hes; apply in_or_app; right; left; reflexivity|exact Ho|].
    exists t. repeat split; try assumption.
    pose proof (classify_running_count _ _ Hc) as Z.
    unfold count_of in Z. rewrite Ft in Z. exact Z.
  - subst pre. rewrite new_output_print_log by reflexivity.
    destruct (existsb (owned pid) (snapshot_of w));
      (split; intros H; [|discriminate H]); [|discriminate H].
    intros t Ht Ot.
    assert (He : In (entry_of t) (snapshot_of w)) by (apply in_map; exact Ht).
    rewrite Forall_forall in Hpre. specialize (Hpre _ He).
    unfold stop_at, owned in Hpre. cbn [th32OwnerProcessID entry_of] in Hpre.
    rewrite Ot, Z.eqb_refl in Hpre. cbn [th32ThreadID entry_of] in Hpre.
    apply classify_none_count in Hpre. unfold count_of in Hpre.
    rewrite (find_unique _ _ N Ht) in Hpre. lia.
Qed.

Lemma status_verdict_is_sound_sample :
  unique_tids mixed_world = true
  /\ exists t, In t (threads mixed_world) /\ th_owner t = 7
               /\ th_count t = 0%nat.
Proof.
  split; [reflexivity|].
  apply (proj2 (status_verdict_is_sound 7 mixed_world eq_refl)).
  reflexivity.
Defined.

Lemma probe_ready_thread pid w t :
  probe_ready pid w = true -> In t (threads w) -> th_owner t = pid ->
  th_open_ok t = true /\ th_suspend_ok t = true /\ th_resume_ok t = true.
Proof.
  unfold probe_ready. intros P Hin Ho.
  apply andb_prop in P. destruct P as [_ P].
  rewrite forallb_forall in P. specialize (P t Hin).
  rewrite Ho, Z.eqb_refl in P. cbn [negb orb] in P.
  apply andb_prop in P. destruct P as [P P3].
  apply andb_prop in P. destruct P as [P1 P2]. auto.
Qed.

Lemma below_maximum_thread pid w t :
  below_maximum pid w = true -> In t (threads w) -> th_owner t = pid ->
  (th_count t < MAXIMUM_SUSPEND_COUNT)%nat.
Proof.
  unfold below_maximum. intros B Hin Ho.
  rewrite forallb_forall in B. specialize (B t Hin).
  rewrite Ho, Z.eqb_refl in B. cbn [negb orb] in B.
  apply Nat.ltb_lt in B. exact B.
Qed.

(** On a target whose threads can all be probed, [status] always reaches
    a verdict, and the verdict is the state of the whole target: T when
    every thread of the target has a suspend count of at least 1, R
    otherwise.  The thread table is left as it was. *)
Theorem status_decides_the_target pid w :
  unique_tids w = true ->
  probe_ready pid w = true ->
  below_maximum pid w = true ->
  owns_thread pid w = true ->
  let r := status pid w in
  fst r = 0
  /\ new_output w (snd r) = [if all_suspended pid w then line_T else line_R]
  /\ threads (snd r) = threads w.
Proof.
  intros U P B O. cbv zeta.
  pose proof (distinct_NoDup _ U) as N.
  assert (K : forall e, In e (snapshot_of w) -> owned pid e = true ->
              exists t, In t (threads w) /\ th_owner t = pid
                /\ count_of (threads w) (th32ThreadID e) = th_count t
                /\ classify (threads w) (th32ThreadID e)
                   = if (th_count t =? 0)%nat then Some StopRunning
                     else None).
  { intros e He Oe.
    destruct (entry_thread pid w e U He Oe) as (t & Ht & Ot & It & Ft).
    exists t. repeat split; try assumption.
    - unfold count_of. rewrite Ft. reflexivity.
    - destruct (probe_ready_thread pid w t P Ht Ot) as (X & Y & Z).
      rewrite <- It. apply classify_healthy; try assumption.
      + rewrite It. exact Ft.
      + apply (below_maximum_thread pid w t B Ht Ot). }
  rewrite status_summary_correct. unfold status_summary.
  rewrite (probe_ready_snapshot _ _ P). cbv zeta.
  destruct (first_stop (threads w) pid (snapshot_of w))
    as [pre [[[e s] post]|]] eqn:Hfs;
    destruct (first_stop_split _ _ _ _ _ Hfs) as [Hpre Hes];
    cbn [fst snd].
  - destruct Hes as [Hes Hstop].
    destruct (stop_at_owned _ _ _ _ Hstop) as [Ho Hc].
    destruct (K e) as (t & Ht & Ot & Ct & Cl);
      [rewrite Hes; apply in_or_app; right; left; reflexivity|exact Ho|].
    rewrite Hc in Cl.
    destruct (th_count t =? 0)%nat eqn:Z; [|discriminate Cl].
    injection Cl as ->. apply Nat.eqb_eq in Z.
    rewrite new_output_print_log by reflexivity.
    cbn [stop_code stop_line stop_state].
    assert (A : all_suspended pid w = false).
    { destruct (all_suspended pid w) eqn:A; [|reflexivity].
      unfold all_suspended in A. rewrite forallb_forall in A.
      specialize (A t Ht). rewrite Ot, Z.eqb_refl, Z in A. discriminate A. }
    rewrite A. auto.
  - subst pre. unfold owns_thread in O. rewrite O.
    rewrite new_output_print_log by reflexivity.
    assert (A : all_suspended pid w = true).
    { unfold all_suspended. apply forallb_forall. intros t Ht.
      destruct (th_owner t =? pid) eqn:Ot; [|reflexivity].
      apply Z.eqb_eq in Ot. cbn [negb orb].
      assert (He : In (entry_of t) (snapshot_of w))
        by (apply in_map; exact Ht).
      rewrite Forall_forall in Hpre. specialize (Hpre _ He).
      unfold stop_at, owned in Hpre.
      cbn [th32OwnerProcessID entry_of] in Hpre.
      rewrite Ot, Z.eqb_refl in Hpre. cbn [th32ThreadID entry_of] in Hpre.
      apply classify_none_count in Hpre. unfold count_of in Hpre.
      rewrite (find_unique _ _ N Ht) in Hpre.
      apply Nat.leb_le. lia. }
    rewrite A. auto.
Qed.

Lemma status_decides_the_target_sample :
  unique_tids mixed_world = true
  /\ probe_ready 7 mixed_world = true
  /\ below_maximum 7 mixed_world = true
  /\ owns_thread 7 mixed_world = true
  /\ new_output mixed_world (snd (status 7 mixed_world)) = [line_R].
Proof.
  repeat (split; [reflexivity|]).
  exact (proj1 (proj2 (status_decides_the_target 7 mixed_world
                         eq_refl eq_refl eq_refl eq_refl))).
Defined.

Lemma probed_stop p ts tid s :
  classify ts tid = Some s ->
  probed (stop_events (Zpos p) (count_of ts tid) tid s)
  = match s with
    | StopOpenFail _ | StopSuspendFail _ => []
    | _ => [tid]
    end.
Proof.
  intros Hc. unfold probed.
  destruct s; cbn [stop_events probe_events flat_map app].
  - reflexivity.
  - rewrite Z.eqb_refl. reflexivity.
  - apply classify_resume_fail_count in Hc.
    rewrite count_is_not_failure by lia. reflexivity.
  - apply classify_running_count in Hc.
    rewrite count_is_not_failure by lia. reflexivity.
Qed.

(** [status] probes the target's threads in snapshot order, without
    skipping one: on every path the threads probed are an initial stretch
    of the target's threads in the snapshot. *)
Theorem status_probes_in_snapshot_order pid w :
  exists rest,
    owned_tids pid (snapshot_of w)
    = probed (new_calls w (snd (status pid w))) ++ rest.
Proof.
  rewrite status_summary_correct. unfold status_summary.
  destruct (snapshot_ok w).
  2:{ cbn [snd]. rewrite new_calls_print_log by reflexivity.
      eexists. reflexivity. }
  cbv zeta.
  destruct (first_stop (threads w) pid (snapshot_of w))
    as [pre [[[e s] post]|]] eqn:Hfs;
    destruct (first_stop_split _ _ _ _ _ Hfs) as [Hpre Hes];
    cbn [fst snd].
  - destruct Hes as [Hes Hstop].
    destruct (stop_at_owned _ _ _ _ Hstop) as [Ho Hc].
    assert (E : owned_tids pid (snapshot_of w)
                = owned_tids pid pre
                    ++ th32ThreadID e :: owned_tids pid post).
    { rewrite Hes, owned_tids_app. f_equal.
      unfold owned_tids. cbn [filter]. rewrite Ho. reflexivity. }
    rewrite E.
    rewrite new_calls_print_log by apply calls_stop_state.
    rewrite !probed_app, probed_pass by exact Hpre.
    rewrite (probed_stop _ _ _ _ Hc).
    cbn [probed flat_map app]. rewrite app_nil_r.
    destruct s.
    + exists (th32ThreadID e :: owned_tids pid post).
      rewrite app_nil_r. reflexivity.
    + exists (th32ThreadID e :: owned_tids pid post).
      rewrite app_nil_r. reflexivity.
    + exists (owned_tids pid post). rewrite <- app_assoc. reflexivity.
    + exists (owned_tids pid post). rewrite <- app_assoc. reflexivity.
  - subst pre. rewrite new_calls_print_log by reflexivity.
    rewrite !probed_app, probed_pass by exact Hpre.
    cbn [probed flat_map app]. exists []. rewrite !app_nil_r. reflexivity.
Qed.

(** *** The operations after one another *)

Lemma first_stop_agree ts1 ts2 pid es :
  (forall e, In e es -> stop_at ts1 pid e = stop_at ts2 pid e) ->
  first_stop ts1 pid es = first_stop ts2 pid es.
Proof.
  induction es as [|e es IH]; intros H; cbn [first_stop]; [reflexivity|].
  rewrite (H e (or_introl eq_refl)).
  rewrite IH by (intros x Hx; apply H; right; exact Hx). reflexivity.
Qed.

(** The code and the line of [status] are read off the snapshot and the
    classes of the target's threads alone. *)
Lemma status_same_target_same_verdict pid w1 w2 :
  snapshot_ok w1 = snapshot_ok w2 ->
  snapshot_of w1 = snapshot_of w2 ->
  (forall e, In e (snapshot_of w2) -> owned pid e = true ->
             classify (threads w1) (th32ThreadID e)
             = classify (threads w2) (th32ThreadID e)) ->
  fst (status pid w1) = fst (status pid w2)
  /\ new_output w1 (snd (status pid w1)) = new_output w2 (snd (status pid w2)).
Proof.
  intros S E C. rewrite !status_summary_correct. unfold status_summary.
  rewrite S, E.
  destruct (snapshot_ok w2).
  2:{ cbn [fst snd]. rewrite !new_output_print_log by reflexivity. auto. }
  cbv zeta.
  rewrite (first_stop_agree (threads w1) (threads w2)).
  2:{ intros e He. unfold stop_at. destruct (owned pid e) eqn:O; auto. }
  destruct (first_stop (threads w2) pid (snapshot_of w2))
    as [pre [[[e s] post]|]]; cbn [fst snd].
  - rewrite !new_output_print_log by apply stdout_stop_state. auto.
  - rewrite !new_output_print_log by reflexivity. auto.
Qed.

Lemma find_thread_map g ts tid :
  (forall x, th_id (g x) = th_id x) ->
  find_thread tid (map g ts) = option_map g (find_thread tid ts).
Proof.
  intros Hg. unfold find_thread.
  induction ts as [|t ts IH]; cbn [map find]; [reflexivity|].
  rewrite Hg. destruct (th_id t =? tid); [reflexivity|exact IH].
Qed.

Lemma adjust_keeps_id f pid x :
  th_id (if th_owner x =? pid then adjust f x else x) = th_id x.
Proof.
  destruct (th_owner x =? pid); [|reflexivity].
  destruct f; cbn [adjust]; [apply suspend_one_id|reflexivity].
Qed.

(** Suspending or resuming another process does not change what
    [status] says about the target: the code and the line are the same
    before and after [apply] on a different pid, whatever [apply] did. *)
Theorem status_ignores_other_processes pid q suspend w :
  unique_tids w = true ->
  q <> pid ->
  let w1 := snd (apply q suspend w) in
  fst (status pid w1) = fst (status pid w)
  /\ new_output w1 (snd (status pid w1)) = new_output w (snd (status pid w)).
Proof.
  intros U Q. cbv zeta.
  rewrite apply_summary_correct. unfold apply_summary.
  destruct (exported _ w); [destruct (can_open q w)|]; cbn [snd];
    try (apply status_same_target_same_verdict; reflexivity).
  apply status_same_target_same_verdict.
  - reflexivity.
  - unfold snapshot_of. cbn [threads log set_threads]. apply adjust_entries.
  - intros e He Oe.
    destruct (entry_thread pid w e U He Oe) as (t & Ht & Ot & It & Ft).
    unfold classify. cbn [threads log set_threads]. unfold adjust_process.
    rewrite find_thread_map by apply adjust_keeps_id.
    rewrite Ft. cbn [option_map].
    assert (X : (th_owner t =? q) = false) by (apply Z.eqb_neq; congruence).
    rewrite X. reflexivity.
Qed.

Lemma status_ignores_other_processes_sample :
  unique_tids mixed_world = true
  /\ 4 <> 7
  /\ new_output (snd (apply 4 true mixed_world))
                (snd (status 7 (snd (apply 4 true mixed_world))))
     = [line_R].
Proof.
  split; [reflexivity|split; [discriminate|]].
  rewrite (proj2 (status_ignores_other_processes 7 4 true mixed_world
                    eq_refl ltac:(discriminate))).
  reflexivity.
Defined.

Lemma resume_after_suspend_below pid w :
  below_maximum pid w = true ->
  adjust_process NtResumeProcess pid
    (adjust_process NtSuspendProcess pid (threads w)) = threads w.
Proof.
  unfold below_maximum. intros B. rewrite forallb_forall in B.
  unfold adjust_process. rewrite map_map.
  rewrite <- (map_id (threads w)) at 2. apply map_ext_in. intros t Ht.
  specialize (B t Ht).
  destruct (th_owner t =? pid) eqn:O; [|rewrite O; reflexivity].
  cbn [negb orb] in B. apply Nat.ltb_lt in B. cbn [adjust].
  assert (E : th_owner (suspend_one t) = th_owner t).
  { unfold suspend_one. destruct (_ <? _)%nat; reflexivity. }
  rewrite E, O. apply resume_suspend. exact B.
Qed.

(** A suspend followed by a resume of the same process is a round trip:
    when the process can be opened, both primitives are exported and no
    thread of it sits at the maximum suspend count, both calls return 0,
    nothing is printed, and the thread table and the handle table are what
    they were before. *)
Theorem suspend_then_resume_is_a_round_trip pid w :
  controllable pid w = true ->
  below_maximum pid w = true ->
  let r1 := apply pid true w in
  let r2 := apply pid false (snd r1) in
  fst r1 = 0 /\ fst r2 = 0
  /\ threads (snd r2) = threads w
  /\ handles (snd r2) = handles w
  /\ stdout (snd r2) = stdout w.
Proof.
  intros C B. cbv zeta.
  unfold controllable in C. apply andb_prop in C. destruct C as [C X2].
  apply andb_prop in C. destruct C as [C X1].
  pose proof (apply_controllable pid true w C X1) as A1.
  destruct (apply_success _ _ _ A1) as [tr1 E1].
  assert (A2 : fst (apply pid false (snd (apply pid true w))) = 0).
  { rewrite E1. apply apply_controllable; [exact C|exact X2]. }
  destruct (apply_success _ _ _ A2) as [tr2 E2].
  split; [exact A1|split; [exact A2|]].
  split; [|split].
  - rewrite E2, E1. cbn [threads log set_threads sus_res_of].
    apply resume_after_suspend_below. exact B.
  - rewrite !handles_apply. reflexivity.
  - rewrite E2, E1. reflexivity.
Qed.

Lemma suspend_then_resume_is_a_round_trip_sample :
  controllable 7 mixed_world = true
  /\ below_maximum 7 mixed_world = true
  /\ threads (snd (apply 7 false (snd (apply 7 true mixed_world))))
     = threads mixed_world.
Proof.
  split; [reflexivity|split; [reflexivity|]].
  destruct (suspend_then_resume_is_a_round_trip 7 mixed_world
              eq_refl eq_refl) as (_ & _ & H & _).
  exact H.
Defined.

(** *** [main] *)

Lemma apply_never_prints_usage pid suspend w :
  ~ In usage_text (new_output w (snd (apply pid suspend w))).
Proof.
  rewrite apply_summary_correct. unfold apply_summary.
  destruct (exported _ w); [destruct (can_open pid w)|]; cbn [snd].
  - rewrite (new_output_app w _ []) by (cbn; rewrite app_nil_r; reflexivity).
    intros [].
  - rewrite new_output_print_log by reflexivity.
    intros [H|[]]. discriminate H.
  - rewrite new_output_print_log by reflexivity.
    intros [H|[]]. discriminate H.
Qed.

Lemma status_never_prints_usage pid w :
  ~ In usage_text (new_output w (snd (status pid w))).
Proof.
  rewrite status_summary_correct. unfold status_summary.
  destruct (snapshot_ok w).
  - cbv zeta.
    destruct (first_stop (threads w) pid (snapshot_of w))
      as [pre [[[e s] post]|]]; cbn [snd].
    + rewrite new_output_print_log by apply stdout_stop_state.
      intros [H|[]]. destruct s; discriminate H.
    + rewrite new_output_print_log by reflexivity.
      intros [H|[]].
      destruct (existsb (owned pid) (snapshot_of w)); discriminate H.
  - cbn [snd]. rewrite new_output_print_log by reflexivity.
    intros [H|[]]. discriminate H.
Qed.

Lemma apply_exit_code pid suspend w :
  fst (apply pid suspend w) = 0 \/ fst (apply pid suspend w) = 1.
Proof.
  rewrite apply_summary_correct. unfold apply_summary.
  destruct (exported _ w); [destruct (can_open pid w)|]; auto.
Qed.

Lemma status_exit_code pid w :
  fst (status pid w) = 0 \/ fst (status pid w) = 1.
Proof.
  rewrite status_summary_correct. unfold status_summary.
  destruct (snapshot_ok w); [|auto]. cbv zeta.
  destruct (first_stop (threads w) pid (snapshot_of w))
    as [pre [[[e s] post]|]]; cbn [fst].
  - destruct s; auto.
  - destruct (existsb (owned pid) (snapshot_of w)); auto.
Qed.

(** How [main] goes on, by the shape of the command line. *)
Lemma main_cases argv w :
  (well_formed argv = false /\ main argv w = usage w)
  \/ (well_formed argv = true
      /\ exists cmd pid, main argv w = run_command cmd pid w).
Proof.
  unfold well_formed, main.
  destruct (Nat.eqb_spec (List.length argv) 3) as [L|L].
  - rewrite L. cbn [Z.of_nat Pos.of_succ_nat Pos.succ Z.eqb Pos.eqb negb
                    andb].
    destruct (parse_command (nth 1 argv "")) as [cmd|].
    + right. split; [reflexivity|]. eexists. eexists. reflexivity.
    + left. auto.
  - assert (X : (Z.of_nat (List.length argv) =? 3) = false)
      by (apply Z.eqb_neq; lia).
    rewrite X. cbn [negb andb]. left. auto.
Qed.

(** The usage text is printed exactly on a malformed command line: a
    well-formed one never prints it, whatever the operation does. *)
Theorem main_prints_usage_iff_malformed argv w :
  In usage_text (new_output w (snd (main argv w)))
  <-> well_formed argv = false.
Proof.
  destruct (main_cases argv w) as [[F E]|[T (cmd & pid & E)]]; rewrite E.
  - unfold usage. cbn [snd].
    rewrite (new_output_app w _ [usage_text]) by reflexivity.
    split; [intros _; exact F|intros _; left; reflexivity].
  - split; [|rewrite T; discriminate].
    intros H. exfalso. revert H.
    destruct cmd; cbn [run_command];
      [apply apply_never_prints_usage|apply apply_never_prints_usage
      |apply status_never_prints_usage].
Qed.

(** [main] exits with 0 or 1, and with 0 only on a well-formed command
    line. *)
Theorem main_exit_code argv w :
  fst (main argv w) = 1
  \/ (fst (main argv w) = 0 /\ well_formed argv = true).
Proof.
  destruct (main_cases argv w) as [[F E]|[T (cmd & pid & E)]]; rewrite E.
  - left. reflexivity.
  - assert (X : fst (run_command cmd pid w) = 0
                \/ fst (run_command cmd pid w) = 1).
    { destruct cmd; cbn [run_command];
        auto using apply_exit_code, status_exit_code. }
    destruct X as [X|X]; auto.
Qed.

(** One invocation works on the process as a whole or on its threads,
    never both: the calls of [main] hold no process call (status) or no
    thread call (suspend, resume, usage). *)
Theorem main_makes_one_kind_of_call argv w :
  process_calls (new_calls w (snd (main argv w))) = []
  \/ thread_calls (new_calls w (snd (main argv w))) = [].
Proof.
  destruct (main_cases argv w) as [[F E]|[T (cmd & pid & E)]]; rewrite E.
  - left. unfold usage. cbn [snd].
    rewrite (new_calls_app w _ []) by (cbn; rewrite app_nil_r; reflexivity).
    reflexivity.
  - destruct cmd; cbn [run_command].
    + right. apply apply_thread_calls.
    + right. apply apply_thread_calls.
    + left. apply (status_thread_calls pid w).
Qed.

End CoverageFacts.
